(** * Tetris game engine (src/tetris-game.tsx): shallow embedding and
      verification of its specification.

    The React component [TetrisGame] keeps seven state variables and a set
    of closures over them.  The closures become functions of the state
    snapshot of the render in which they were created; the [setX] calls
    become updates of the state committed after the handler.  JavaScript
    numbers are integers throughout the program (positions, cells, score),
    so they are modelled by [Z]; values beyond 2^53 are outside the model. *)

From Stdlib Require Import ZArith List Bool String Lia.
From stdpp Require Import base list.
From Equations Require Import Equations.
Import ListNotations.
Local Open Scope Z_scope.

(** ** Values held in arrays

    [number[][]] arrays hold numbers; reading past the end of an array, or
    reading a hole left by a write past the end, yields [undefined]. *)

Inductive cell : Type :=
| Num (n : Z)
| Undef.

(** ToBoolean, as used by [if (shape[y][x])] and [board[newY][newX]]. *)
Definition truthy (c : cell) : bool :=
  match c with
  | Num n => negb (n =? 0)
  | Undef => false
  end.

(** [cell === 0]. *)
Definition strict_eq_0 (c : cell) : bool :=
  match c with
  | Num n => n =? 0
  | Undef => false
  end.

Abbreviation Row := (list cell).
Abbreviation Board := (list (list cell)).
Abbreviation Shape := (list (list cell)).

(** ** Exceptions

    The only exception the engine can raise is the [TypeError] of indexing
    [undefined] (a missing row of the board, or [shape[0]] of an empty
    shape). *)

Inductive result (A : Type) : Type :=
| Ok (a : A)
| TypeError.
Arguments Ok {A} a.
Arguments TypeError {A}.

Definition bind {A B : Type} (r : result A) (k : A -> result B) : result B :=
  match r with
  | Ok a => k a
  | TypeError => TypeError
  end.

Notation "'try' v ':=' r 'in' k" := (bind r (fun v => k))
  (at level 10, v name, r at level 100, k at level 200).

(** ** Array primitives *)

(** [a[i]] for an index already known to be a natural number. *)
Definition array_get (a : Row) (i : nat) : cell :=
  match a !! i with
  | Some c => c
  | None => Undef
  end.

(** [a[i] = v].  Inside the array the element is replaced; at or past the
    end the array is extended, the skipped indices becoming holes; a
    negative [i] names an ordinary property and leaves every element as it
    was (the engine never reads a negative index: [isValidPosition] tests
    [newX < 0] first, and the copy [[...row]] drops such properties). *)
Definition array_set (a : Row) (i : Z) (v : cell) : Row :=
  if i <? 0 then a
  else if i <? Z.of_nat (length a) then <[Z.to_nat i := v]> a
  else a ++ replicate (Z.to_nat i - length a)%nat Undef ++ [v].

(** Cell of a board at natural coordinates: [board[r][c]], [undefined]
    when the coordinate is not on the board. *)
Definition cell_at (board : Board) (r c : nat) : cell :=
  match board !! r with
  | Some row => array_get row c
  | None => Undef
  end.

(** ** Constants and data *)

Definition BOARD_WIDTH : Z := 10.
Definition BOARD_HEIGHT : Z := 20.

(** [Array(BOARD_WIDTH).fill(0)] *)
Definition empty_row : Row := replicate (Z.to_nat BOARD_WIDTH) (Num 0).

Definition EMPTY_BOARD : Board := replicate (Z.to_nat BOARD_HEIGHT) empty_row.

Record Position : Type := { x : Z; y : Z }.

Record Piece : Type := {
  shape : Shape;
  color : string;
  position : Position
}.

(** Keys of [TETROMINOES] (the letters I O T S Z J L). *)
Inductive TetrominoType : Type :=
| Tet_I | Tet_O | Tet_T | Tet_S | Tet_Z | Tet_J | Tet_L.

Record Tetromino : Type := { tet_shape : Shape; tet_color : string }.

Definition nums (l : list Z) : Row := map Num l.

Definition TETROMINOES (t : TetrominoType) : Tetromino :=
  match t with
  | Tet_I => {| tet_shape := map nums [[0;0;0;0]; [1;1;1;1]; [0;0;0;0]; [0;0;0;0]];
                tet_color := "#00f0f0" |}
  | Tet_O => {| tet_shape := map nums [[1;1]; [1;1]];
                tet_color := "#f0f000" |}
  | Tet_T => {| tet_shape := map nums [[0;1;0]; [1;1;1]; [0;0;0]];
                tet_color := "#a000f0" |}
  | Tet_S => {| tet_shape := map nums [[0;1;1]; [1;1;0]; [0;0;0]];
                tet_color := "#00f000" |}
  | Tet_Z => {| tet_shape := map nums [[1;1;0]; [0;1;1]; [0;0;0]];
                tet_color := "#f00000" |}
  | Tet_J => {| tet_shape := map nums [[1;0;0]; [1;1;1]; [0;0;0]];
                tet_color := "#0000f0" |}
  | Tet_L => {| tet_shape := map nums [[0;0;1]; [1;1;1]; [0;0;0]];
                tet_color := "#f0a000" |}
  end.

Record GameState : Type := {
  board : Board;
  currentPiece : option Piece;
  score : Z;
  lines : Z;
  level : Z;
  gameOver : bool;
  isPaused : bool
}.

(** ** createRandomPiece

    [Math.random] is the only source of non-determinism; the tetromino
    type it selects is an input of the model. *)
Definition createRandomPiece (randomType : TetrominoType) : Piece :=
  let tetromino := TETROMINOES randomType in
  let row0 := match tet_shape tetromino !! 0%nat with
              | Some r => r
              | None => []
              end in
  {| shape := tet_shape tetromino;
     color := tet_color tetromino;
     position := {| x := BOARD_WIDTH / 2 - Z.of_nat (length row0) / 2; y := 0 |} |}.

(** ** isValidPosition

    The two nested [for] loops, with their early [return false].  [xi] and
    [yi] are the loop counters; [row] is the part of [shape[yi]] still to
    be visited. *)
Fixpoint isValidPosition_row (board : Board) (newPosition : Position)
    (yi xi : Z) (row : Row) : result bool :=
  match row with
  | [] => Ok true
  | c :: rest =>
      if truthy c then
        let newX := newPosition.(x) + xi in
        let newY := newPosition.(y) + yi in
        if (newX <? 0) || (newX >=? BOARD_WIDTH) || (newY >=? BOARD_HEIGHT)
        then Ok false
        else if newY >=? 0 then
          match board !! Z.to_nat newY with
          | None => TypeError
          | Some brow =>
              if truthy (array_get brow (Z.to_nat newX)) then Ok false
              else isValidPosition_row board newPosition yi (xi + 1) rest
          end
        else isValidPosition_row board newPosition yi (xi + 1) rest
      else isValidPosition_row board newPosition yi (xi + 1) rest
  end.

Fixpoint isValidPosition_rows (board : Board) (newPosition : Position)
    (yi : Z) (rows : Shape) : result bool :=
  match rows with
  | [] => Ok true
  | row :: rest =>
      try ok := isValidPosition_row board newPosition yi 0 row in
      if ok : bool then isValidPosition_rows board newPosition (yi + 1) rest
      else Ok false
  end.

(** [newShape || piece.shape]: every array is truthy, so an argument that
    is present is always the one used. *)
Definition isValidPosition (board : Board) (piece : Piece)
    (newPosition : Position) (newShape : option Shape) : result bool :=
  let shape := match newShape with
               | Some s => s
               | None => piece.(shape)
               end in
  isValidPosition_rows board newPosition 0 shape.

(** ** rotatePiece *)
Definition rotatePiece (shape : Shape) : result Shape :=
  match shape !! 0%nat with
  | None => TypeError
  | Some row0 =>
      Ok (map (fun index => reverse (map (fun row => array_get row index) shape))
              (seq 0 (length row0)))
  end.

(** ** placePiece *)
Fixpoint placePiece_row (newBoard : Board) (pos : Position)
    (yi xi : Z) (row : Row) : result Board :=
  match row with
  | [] => Ok newBoard
  | c :: rest =>
      if truthy c then
        let boardY := pos.(y) + yi in
        let boardX := pos.(x) + xi in
        if boardY >=? 0 then
          match newBoard !! Z.to_nat boardY with
          | None => TypeError
          | Some brow =>
              placePiece_row
                (<[Z.to_nat boardY := array_set brow boardX (Num 1)]> newBoard)
                pos yi (xi + 1) rest
          end
        else placePiece_row newBoard pos yi (xi + 1) rest
      else placePiece_row newBoard pos yi (xi + 1) rest
  end.

Fixpoint placePiece_rows (newBoard : Board) (pos : Position)
    (yi : Z) (rows : Shape) : result Board :=
  match rows with
  | [] => Ok newBoard
  | row :: rest =>
      try b := placePiece_row newBoard pos yi 0 row in
      placePiece_rows b pos (yi + 1) rest
  end.

(** [board.map((row) => [...row])] copies every row: in the model the copy
    is the same list, and the caller's [board] is never written. *)
Definition placePiece (board : Board) (piece : Piece) : result Board :=
  let newBoard := map (fun row => row) board in
  placePiece_rows newBoard piece.(position) 0 piece.(shape).

(** ** clearLines *)

(** [row.some((cell) => cell === 0)] *)
Definition has_empty_cell (row : Row) : bool := existsb strict_eq_0 row.

(** [while (newBoard.length < BOARD_HEIGHT) newBoard.unshift(...)] *)
Equations? unshift_empty_rows (newBoard : Board) : Board
  by wf (Z.to_nat BOARD_HEIGHT - length newBoard)%nat lt :=
  unshift_empty_rows newBoard with
      Z_lt_dec (Z.of_nat (length newBoard)) BOARD_HEIGHT => {
    | left _ := unshift_empty_rows (empty_row :: newBoard);
    | right _ := newBoard }.
Proof. simpl. unfold BOARD_HEIGHT in *. lia. Qed.

Definition clearLines (board : Board) : Board * Z :=
  let newBoard := List.filter has_empty_cell board in
  let linesCleared := BOARD_HEIGHT - Z.of_nat (length newBoard) in
  (unshift_empty_rows newBoard, linesCleared).

(** ** The component state and its handlers

    A handler reads the snapshot [st] of the render that created it; each
    [setX] call contributes to the state committed once the handler has
    finished.  An exception leaves the updates queued before it in place. *)

Definition setBoard (st : GameState) (b : Board) : GameState :=
  {| board := b; currentPiece := st.(currentPiece); score := st.(score);
     lines := st.(lines); level := st.(level); gameOver := st.(gameOver);
     isPaused := st.(isPaused) |}.

Definition setCurrentPiece (st : GameState) (p : option Piece) : GameState :=
  {| board := st.(board); currentPiece := p; score := st.(score);
     lines := st.(lines); level := st.(level); gameOver := st.(gameOver);
     isPaused := st.(isPaused) |}.

Definition setScore (st : GameState) (f : Z -> Z) : GameState :=
  {| board := st.(board); currentPiece := st.(currentPiece);
     score := f st.(score); lines := st.(lines); level := st.(level);
     gameOver := st.(gameOver); isPaused := st.(isPaused) |}.

Definition setLines (st : GameState) (f : Z -> Z) : GameState :=
  {| board := st.(board); currentPiece := st.(currentPiece);
     score := st.(score); lines := f st.(lines); level := st.(level);
     gameOver := st.(gameOver); isPaused := st.(isPaused) |}.

Definition setLevel (st : GameState) (l : Z) : GameState :=
  {| board := st.(board); currentPiece := st.(currentPiece);
     score := st.(score); lines := st.(lines); level := l;
     gameOver := st.(gameOver); isPaused := st.(isPaused) |}.

Definition setGameOver (st : GameState) (g : bool) : GameState :=
  {| board := st.(board); currentPiece := st.(currentPiece);
     score := st.(score); lines := st.(lines); level := st.(level);
     gameOver := g; isPaused := st.(isPaused) |}.

Definition setIsPaused (st : GameState) (f : bool -> bool) : GameState :=
  {| board := st.(board); currentPiece := st.(currentPiece);
     score := st.(score); lines := st.(lines); level := st.(level);
     gameOver := st.(gameOver); isPaused := f st.(isPaused) |}.

(** How a handler ends, with the state committed afterwards. *)
Inductive outcome : Type :=
| Returned (st : GameState)
| Threw (st : GameState).

Definition committed (o : outcome) : GameState :=
  match o with
  | Returned st => st
  | Threw st => st
  end.

Definition withPosition (p : Piece) (pos : Position) : Piece :=
  {| shape := p.(shape); color := p.(color); position := pos |}.

Definition withShape (p : Piece) (s : Shape) : Piece :=
  {| shape := s; color := p.(color); position := p.(position) |}.

(** ** movePieceDown

    [isValidPosition] and [placePiece] are the closures of the same render:
    both read [st.(board)], also after [setBoard(clearedBoard)] has been
    queued. *)
Definition movePieceDown (st : GameState) (randomType : TetrominoType) : outcome :=
  match st.(currentPiece) with
  | None => Returned st
  | Some piece =>
      if st.(gameOver) || st.(isPaused) then Returned st
      else
        let newPosition :=
          {| x := piece.(position).(x); y := piece.(position).(y) + 1 |} in
        match isValidPosition st.(board) piece newPosition None with
        | TypeError => Threw st
        | Ok true =>
            Returned (setCurrentPiece st (Some (withPosition piece newPosition)))
        | Ok false =>
            match placePiece st.(board) piece with
            | TypeError => Threw st
            | Ok newBoard =>
                let '(clearedBoard, linesCleared) := clearLines newBoard in
                let st1 := setBoard st clearedBoard in
                let st2 := setLines st1 (fun prev => prev + linesCleared) in
                let st3 :=
                  setScore st2 (fun prev => prev + linesCleared * 100 * st.(level)) in
                let nextPiece := createRandomPiece randomType in
                match isValidPosition st.(board) nextPiece nextPiece.(position) None with
                | TypeError => Threw st3
                | Ok false => Returned (setGameOver st3 true)
                | Ok true => Returned (setCurrentPiece st3 (Some nextPiece))
                end
            end
        end
  end.

(** ** handleKeyPress ([key] is [event.key]) *)
Definition handleKeyPress (st : GameState) (key : string)
    (randomType : TetrominoType) : outcome :=
  match st.(currentPiece) with
  | None => Returned st
  | Some piece =>
      if st.(gameOver) || st.(isPaused) then Returned st
      else if (key =? "ArrowLeft")%string then
        let leftPosition :=
          {| x := piece.(position).(x) - 1; y := piece.(position).(y) |} in
        match isValidPosition st.(board) piece leftPosition None with
        | TypeError => Threw st
        | Ok true => Returned (setCurrentPiece st (Some (withPosition piece leftPosition)))
        | Ok false => Returned st
        end
      else if (key =? "ArrowRight")%string then
        let rightPosition :=
          {| x := piece.(position).(x) + 1; y := piece.(position).(y) |} in
        match isValidPosition st.(board) piece rightPosition None with
        | TypeError => Threw st
        | Ok true => Returned (setCurrentPiece st (Some (withPosition piece rightPosition)))
        | Ok false => Returned st
        end
      else if (key =? "ArrowDown")%string then movePieceDown st randomType
      else if (key =? "ArrowUp")%string || (key =? " ")%string then
        match rotatePiece piece.(shape) with
        | TypeError => Threw st
        | Ok rotatedShape =>
            match isValidPosition st.(board) piece piece.(position) (Some rotatedShape) with
            | TypeError => Threw st
            | Ok true => Returned (setCurrentPiece st (Some (withShape piece rotatedShape)))
            | Ok false => Returned st
            end
        end
      else if (key =? "p")%string || (key =? "P")%string then
        Returned (setIsPaused st (fun prev => negb prev))
      else Returned st
  end.

(** The Pause / Resume button: [onClick={() => setIsPaused(!isPaused)}],
    [disabled={gameOver}]. *)
Definition pauseButtonClick (st : GameState) : GameState :=
  if st.(gameOver) then st
  else setIsPaused st (fun _ => negb st.(isPaused)).

(** ** startNewGame *)
Definition startNewGame (randomType : TetrominoType) : GameState :=
  {| board := EMPTY_BOARD; currentPiece := Some (createRandomPiece randomType);
     score := 0; lines := 0; level := 1; gameOver := false; isPaused := false |}.

(** ** The level effect

    [useEffect(() => setLevel(Math.floor(lines / 10) + 1), [lines])] runs
    after every commit in which [lines] differs from the previous render.
    [Math.floor] of the quotient is [Z.div], which rounds down. *)
Definition levelOf (lines : Z) : Z := lines / 10 + 1.

Definition levelEffect (prev st : GameState) : GameState :=
  if prev.(lines) =? st.(lines) then st
  else setLevel st (levelOf st.(lines)).

(** ** Events

    What the timer and the page can deliver to the component, each with
    the draw of [Math.random] it may consume.  The interval is cleared
    while the game is paused or over; a [Tick] delivered then meets the
    guard of [movePieceDown]. *)
Inductive event : Type :=
| Tick (randomType : TetrominoType)
| KeyDown (key : string) (randomType : TetrominoType)
| PauseClick
| NewGameClick (randomType : TetrominoType).

Definition handle (st : GameState) (e : event) : outcome :=
  match e with
  | Tick randomType => movePieceDown st randomType
  | KeyDown key randomType => handleKeyPress st key randomType
  | PauseClick => Returned (pauseButtonClick st)
  | NewGameClick randomType => Returned (startNewGame randomType)
  end.

(** One event: the handler, the commit, then the level effect.  The effect
    that installs the first piece is left to [mount]: its body acts only
    on a state without a current piece, and no handler removes the piece. *)
Definition step (st : GameState) (e : event) : GameState :=
  levelEffect st (committed (handle st e)).

(** One timer tick. *)
Definition tick (st : GameState) (randomType : TetrominoType) : GameState :=
  step st (Tick randomType).

(** The first render and its effects. *)
Definition initialState : GameState :=
  {| board := EMPTY_BOARD; currentPiece := None; score := 0; lines := 0;
     level := 1; gameOver := false; isPaused := false |}.

(** [if (!currentPiece && !gameOver) setCurrentPiece(createRandomPiece())] *)
Definition initEffect (st : GameState) (randomType : TetrominoType) : GameState :=
  match st.(currentPiece) with
  | None =>
      if negb st.(gameOver)
      then setCurrentPiece st (Some (createRandomPiece randomType))
      else st
  | Some _ => st
  end.

Definition mount (randomType : TetrominoType) : GameState :=
  initEffect (setLevel initialState (levelOf initialState.(lines))) randomType.

(** A sequence of events, one after the other. *)
Definition run (st : GameState) (events : list event) : GameState :=
  fold_left step events st.

(** The states a session can be in. *)
Inductive reachable : GameState -> Prop :=
| reachable_mount randomType : reachable (mount randomType)
| reachable_step st e : reachable st -> reachable (step st e).

(** * Specification-level notions *)

(** ** The grid of the data model: H rows of W numbers *)

Definition is_num (c : cell) : bool :=
  match c with
  | Num _ => true
  | Undef => false
  end.

Definition is_grid (b : Board) : bool :=
  (Z.of_nat (length b) =? BOARD_HEIGHT)
  && forallb (fun row => (Z.of_nat (length row) =? BOARD_WIDTH) && forallb is_num row) b.

(** A cell is empty when it holds 0 and filled when it holds another
    number. *)
Definition empty (c : cell) : Prop := c = Num 0.
Definition filled (c : cell) : Prop := truthy c = true.

(** Removal of the complete rows, as the specification words it: a row all
    of whose cells are filled is dropped and counted, a row with an empty
    cell is kept in place. *)
Inductive remove_complete : Board -> Board -> nat -> Prop :=
| rc_nil : remove_complete [] [] 0
| rc_drop row b kept n :
    Forall filled row -> remove_complete b kept n ->
    remove_complete (row :: b) kept (S n)
| rc_keep row b kept n :
    Exists empty row -> remove_complete b kept n ->
    remove_complete (row :: b) (row :: kept) n.


(** [shape[yi][xi]] exists and is truthy: a set cell of the shape. *)
Definition set_cell (shape : Shape) (yi xi : nat) : Prop :=
  exists row c, shape !! yi = Some row /\ row !! xi = Some c /\ truthy c = true.

(** What the collision check asks of the shape cell [(xi, yi)] placed at
    [pos]: its column is on the board, its row is above the floor, and
    the board cell under it, when the row is on the board, is not filled. *)
Definition cell_fits (board : Board) (pos : Position) (yi xi : Z) : Prop :=
  0 <= pos.(x) + xi < BOARD_WIDTH /\
  pos.(y) + yi < BOARD_HEIGHT /\
  (0 <= pos.(y) + yi ->
   ~ filled (cell_at board (Z.to_nat (pos.(y) + yi)) (Z.to_nat (pos.(x) + xi)))).

(** Does a truthy cell of [row] (the rest of shape row [yi], from column
    [xi] on) map to the board cell in row [r], column [c]? *)
Fixpoint row_covers (pos : Position) (yi xi : Z) (row : Row) (r c : nat) : bool :=
  match row with
  | [] => false
  | cell :: rest =>
      (truthy cell && (pos.(y) + yi =? Z.of_nat r) && (pos.(x) + xi =? Z.of_nat c))
      || row_covers pos yi (xi + 1) rest r c
  end.

Fixpoint rows_cover (pos : Position) (yi : Z) (rows : Shape) (r c : nat) : bool :=
  match rows with
  | [] => false
  | row :: rest => row_covers pos yi 0 row r c || rows_cover pos (yi + 1) rest r c
  end.

(** Some set cell of the piece maps to the board cell [(r, c)]. *)
Definition covers (piece : Piece) (r c : nat) : Prop :=
  exists yi xi : nat,
    set_cell piece.(shape) yi xi /\
    piece.(position).(y) + Z.of_nat yi = Z.of_nat r /\
    piece.(position).(x) + Z.of_nat xi = Z.of_nat c.

(** Four successive rotations. *)
Definition rotate4 (shape : Shape) : result Shape :=
  try s1 := rotatePiece shape in
  try s2 := rotatePiece s1 in
  try s3 := rotatePiece s2 in
  rotatePiece s3.

(** A matrix of [R] rows and [C] columns. *)
Definition rect (R C : nat) (m : Shape) : Prop :=
  length m = R /\ Forall (fun row => length row = C) m.

(** ** Sample positions used to exercise the statements *)

(** The O piece one row too low: its lower row maps to row 20. *)
Definition piece_below_floor : Piece :=
  withPosition (createRandomPiece Tet_O) {| x := 4; y := 19 |}.

(** The T piece entering the grid: its upper row is still above row 0. *)
Definition piece_entering : Piece :=
  withPosition (createRandomPiece Tet_T) {| x := 4; y := -1 |}.

(** Bottom row filled except in columns 4 and 5. *)
Definition board_one_gap : Board :=
  replicate 19 empty_row ++ [nums [1;1;1;1;0;0;1;1;1;1]].

(** The O piece rests on the floor above the gap; nine lines have been
    cleared so far. *)
Definition landing_state : GameState :=
  {| board := board_one_gap;
     currentPiece := Some (withPosition (createRandomPiece Tet_O) {| x := 4; y := 18 |});
     score := 500; lines := 9; level := 1; gameOver := false; isPaused := false |}.

(** Columns 4 and 5 stacked up to row 2, and an O piece just spawned on
    top of the stack. *)
Definition board_stacked : Board :=
  replicate 2 empty_row ++ replicate 18 (nums [0;0;0;0;1;1;0;0;0;0]).

Definition stacked_state : GameState :=
  {| board := board_stacked;
     currentPiece := Some (createRandomPiece Tet_O);
     score := 0; lines := 0; level := 1; gameOver := false; isPaused := false |}.

(** A game just started, then paused. *)
Definition paused_state : GameState :=
  setIsPaused (startNewGame Tet_T) (fun _ => true).

(** An O piece has just completed the bottom row. *)
Definition board_merged : Board :=
  replicate 18 empty_row
  ++ [nums [0;0;0;0;1;1;0;0;0;0]; nums [1;1;1;1;1;1;1;1;1;1]].

Definition game_over_state : GameState := setGameOver stacked_state true.

(** ** The invariant of a session *)

(** Every set cell of the shape, placed at [pos], is on the board or above
    it. *)
Definition in_bounds (s : Shape) (pos : Position) : Prop :=
  forall yi xi : nat,
    set_cell s yi xi ->
    0 <= pos.(x) + Z.of_nat xi < BOARD_WIDTH /\
    pos.(y) + Z.of_nat yi < BOARD_HEIGHT.

Definition square (s : Shape) : Prop :=
  exists n : nat, (0 < n)%nat /\ rect n n s.

Definition good_row (row : Row) : Prop :=
  length row = 10%nat /\ Forall (fun c => is_num c = true) row.

(** The part of the invariant the handlers rely on. *)
Definition safe (st : GameState) : Prop :=
  is_grid st.(board) = true /\
  forall p, st.(currentPiece) = Some p ->
            in_bounds p.(shape) p.(position) /\ square p.(shape).

Definition Inv (st : GameState) : Prop :=
  safe st /\ st.(level) = levelOf st.(lines) /\ 0 <= st.(lines).

(** What every handler keeps on a safe state: it returns, the state stays
    safe, the line count does not decrease, and the level is untouched
    unless a new game resets both. *)
Definition kept_by (st : GameState) (o : outcome) : Prop :=
  exists st',
    o = Returned st' /\
    safe st' /\
    ((st.(lines) <= st'.(lines) /\ st'.(level) = st.(level))
     \/ (st'.(lines) = 0 /\ st'.(level) = 1)).

(** * The rest of the component *)

(** ** The game loop

    [const speed = Math.max(100, 1000 - (level - 1) * 100)]: the period in
    milliseconds of the [setInterval] that calls [movePieceDown]. *)
Definition speed (level : Z) : Z := Z.max 100 (1000 - (level - 1) * 100).

(** The interval exists only while the game is neither over nor paused. *)
Definition gameLoop (st : GameState) : option Z :=
  if negb st.(gameOver) && negb st.(isPaused) then Some (speed st.(level))
  else None.

(** ** renderBoard

    The board handed to the page: a copy of [board] on which the cells of
    the current piece that lie on the grid are set to 2.  Unlike
    [placePiece], the write is guarded on all four sides. *)
Fixpoint renderBoard_row (displayBoard : Board) (pos : Position)
    (yi xi : Z) (row : Row) : result Board :=
  match row with
  | [] => Ok displayBoard
  | c :: rest =>
      if truthy c then
        let boardY := pos.(y) + yi in
        let boardX := pos.(x) + xi in
        if (boardY >=? 0) && (boardY <? BOARD_HEIGHT)
           && (boardX >=? 0) && (boardX <? BOARD_WIDTH) then
          match displayBoard !! Z.to_nat boardY with
          | None => TypeError
          | Some brow =>
              renderBoard_row
                (<[Z.to_nat boardY := array_set brow boardX (Num 2)]> displayBoard)
                pos yi (xi + 1) rest
          end
        else renderBoard_row displayBoard pos yi (xi + 1) rest
      else renderBoard_row displayBoard pos yi (xi + 1) rest
  end.

Fixpoint renderBoard_rows (displayBoard : Board) (pos : Position)
    (yi : Z) (rows : Shape) : result Board :=
  match rows with
  | [] => Ok displayBoard
  | row :: rest =>
      try b := renderBoard_row displayBoard pos yi 0 row in
      renderBoard_rows b pos (yi + 1) rest
  end.

Definition displayBoard (st : GameState) : result Board :=
  let displayBoard := map (fun row => row) st.(board) in
  match st.(currentPiece) with
  | Some piece => renderBoard_rows displayBoard piece.(position) 0 piece.(shape)
  | None => Ok displayBoard
  end.

(** [cell === n] *)
Definition strict_eq (c : cell) (n : Z) : bool :=
  match c with
  | Num m => m =? n
  | Undef => false
  end.

(** The colour class of a cell of the page. *)
Definition cellClass (c : cell) : string :=
  if strict_eq c 1 then "bg-gray-400"
  else if strict_eq c 2 then "bg-blue-500"
  else "bg-gray-900".

(** The grid of colour classes that [renderBoard] returns as elements. *)
Definition renderBoard (st : GameState) : result (list (list string)) :=
  try d := displayBoard st in
  Ok (map (fun row => map cellClass row) d).

(** ** Notions used below *)

(** Number of rows of a board without an empty cell. *)
Definition complete_rows (b : Board) : nat :=
  length (List.filter (fun row => negb (has_empty_cell row)) b).

(** A board none of whose cells is filled. *)
Definition no_filled_cell (b : Board) : Prop :=
  forall r c : nat, ~ filled (cell_at b r c).

(** Every filled cell of [b] is filled in [b']. *)
Definition fewer_filled (b b' : Board) : Prop :=
  forall r c : nat, filled (cell_at b r c) -> filled (cell_at b' r c).

(** An O piece against the left wall. *)
Definition left_wall_state : GameState :=
  setCurrentPiece stacked_state
    (Some (withPosition (createRandomPiece Tet_O) {| x := 0; y := 0 |})).

(** A T piece in the middle of the empty board. *)
Definition falling_state : GameState :=
  setCurrentPiece (startNewGame Tet_T)
    (Some (withPosition (createRandomPiece Tet_T) {| x := 4; y := 5 |})).

(** What a handler other than New Game can commit, seen from the snapshot
    [st]: nothing, a new current piece, a flip of the pause flag, or a
    landing (the cleared board, the counters moved by the count of
    [clearLines], then either the next piece or the end of the game). *)
Inductive plays (st : GameState) : GameState -> Prop :=
| plays_nothing : plays st st
| plays_piece old p :
    st.(currentPiece) = Some old ->
    (p.(shape) = old.(shape) \/ rotatePiece old.(shape) = Ok p.(shape)) ->
    plays st (setCurrentPiece st (Some p))
| plays_pause f : plays st (setIsPaused st f)
| plays_landing piece merged next over :
    st.(currentPiece) = Some piece ->
    placePiece st.(board) piece = Ok merged ->
    length merged = 20%nat ->
    0 <= snd (clearLines merged) ->
    ((next = piece /\ over = true) \/
     (exists randomType, next = createRandomPiece randomType /\ over = st.(gameOver))) ->
    plays st
      {| board := fst (clearLines merged);
         currentPiece := Some next;
         score := st.(score) + snd (clearLines merged) * 100 * st.(level);
         lines := st.(lines) + snd (clearLines merged);
         level := st.(level);
         gameOver := over;
         isPaused := st.(isPaused) |}.

Definition commits (st : GameState) (e : event) (st' : GameState) : Prop :=
  match e with
  | NewGameClick randomType => st' = startNewGame randomType
  | _ => plays st st'
  end.

(** The shape of the current piece has at most four rows. *)
Definition small (st : GameState) : Prop :=
  forall p, st.(currentPiece) = Some p -> (length p.(shape) <= 4)%nat.

(** The counters and the board of a session. *)
Definition session_state (st : GameState) : Prop :=
  Inv st /\
  Forall (Exists empty) st.(board) /\
  (exists p, st.(currentPiece) = Some p) /\
  0 <= st.(score) /\ (100 | st.(score)).

(** The cell [(r, c)] is one of the H x W cells of the page. *)
Definition on_grid (r c : nat) : bool :=
  (Z.of_nat r <? BOARD_HEIGHT) && (Z.of_nat c <? BOARD_WIDTH).

(** The current piece is drawn at [(r, c)]. *)
Definition overlay (st : GameState) (r c : nat) : Prop :=
  exists piece,
    st.(currentPiece) = Some piece /\ covers piece r c /\ on_grid r c = true.

(** A T piece half out of the left wall and partly below the floor: no
    handler produces it, [renderBoard] clips it. *)
Definition clipped_state : GameState :=
  setCurrentPiece (startNewGame Tet_T)
    (Some (withPosition (createRandomPiece Tet_T) {| x := -1; y := 19 |})).

(** * Verification *)

(** Boolean comparisons of the source, turned into propositions. *)
Ltac zbool :=
  repeat match goal with
  | H : (_ <? _) = true |- _ => apply Z.ltb_lt in H
  | H : (_ <? _) = false |- _ => apply Z.ltb_ge in H
  | H : (_ =? _) = true |- _ => apply Z.eqb_eq in H
  | H : (_ =? _) = false |- _ => apply Z.eqb_neq in H
  | H : (_ >=? _) = true |- _ => apply Z.geb_le in H
  | H : (_ >=? _) = false |- _ => rewrite Z.geb_leb in H; apply Z.leb_gt in H
  end.
Ltac zlia := zbool; lia.
Ltac zabsurd := exfalso; zbool; lia.

Lemma is_grid_height b : is_grid b = true -> length b = 20%nat.
Proof.
  unfold is_grid, BOARD_HEIGHT. intros Hg.
  apply andb_prop in Hg as [Hl _]. lia.
Qed.

Lemma is_grid_nums b :
  is_grid b = true -> Forall (fun row => forallb is_num row = true) b.
Proof.
  unfold is_grid. intros Hg. apply andb_prop in Hg as [_ Hr].
  rewrite forallb_forall in Hr. apply List.Forall_forall. intros row Hin.
  specialize (Hr row Hin). apply andb_prop in Hr as [_ Hn]. exact Hn.
Qed.

Lemma has_empty_cell_true row :
  has_empty_cell row = true -> Exists empty row.
Proof.
  unfold has_empty_cell. induction row as [|c row IH]; simpl; [discriminate|].
  destruct (strict_eq_0 c) eqn:Hc; simpl; intros Hr.
  - left. destruct c as [n|]; simpl in Hc; [|discriminate].
    unfold empty. f_equal. lia.
  - right. auto.
Qed.

Lemma has_empty_cell_false row :
  forallb is_num row = true -> has_empty_cell row = false -> Forall filled row.
Proof.
  unfold has_empty_cell. induction row as [|c row IH]; simpl; intros Hn Hr.
  - constructor.
  - apply andb_prop in Hn as [Hc Hn]. apply orb_false_elim in Hr as [Hz Hr].
    constructor; [|auto].
    destruct c as [n|]; simpl in *; [|discriminate].
    unfold filled; simpl. rewrite Hz. reflexivity.
Qed.

Lemma replicate_shift {A : Type} (k : nat) (a : A) (l : list A) :
  replicate k a ++ a :: l = a :: replicate k a ++ l.
Proof.
  induction k as [|k IHk]; simpl; [reflexivity|]. rewrite IHk. reflexivity.
Qed.

Lemma unshift_empty_rows_eq (b : Board) :
  unshift_empty_rows b
  = replicate (Z.to_nat BOARD_HEIGHT - length b) empty_row ++ b.
Proof.
  funelim (unshift_empty_rows b).
  - match goal with IH : unshift_empty_rows _ = _ ++ _ |- _ => rewrite IH end.
    simpl length.
    assert (Hs : (Z.to_nat BOARD_HEIGHT - length newBoard
                  = S (Z.to_nat BOARD_HEIGHT - S (length newBoard)))%nat)
      by (unfold BOARD_HEIGHT in *; lia).
    rewrite Hs. simpl replicate. apply replicate_shift.
  - replace (Z.to_nat BOARD_HEIGHT - length newBoard)%nat with 0%nat
      by (unfold BOARD_HEIGHT in *; lia).
    reflexivity.
Qed.

Lemma filter_remove_complete (b : Board) :
  Forall (fun row => forallb is_num row = true) b ->
  remove_complete b (List.filter has_empty_cell b)
    (length b - length (List.filter has_empty_cell b)).
Proof.
  induction 1 as [|row b Hrow Hb IH]; simpl.
  - constructor.
  - pose proof (List.filter_length_le has_empty_cell b) as Hle.
    destruct (has_empty_cell row) eqn:Hr; simpl.
    + apply rc_keep; [apply has_empty_cell_true; exact Hr | exact IH].
    + replace (S (length b) - length (List.filter has_empty_cell b))%nat
        with (S (length b - length (List.filter has_empty_cell b))) by lia.
      apply rc_drop; [apply has_empty_cell_false; assumption | exact IH].
Qed.

Lemma filled_not_empty c : filled c -> ~ empty c.
Proof. unfold filled, empty. intros Hf ->. discriminate. Qed.

(** The relation determines what is kept and how many rows go. *)
Lemma remove_complete_unique b kept1 n1 kept2 n2 :
  remove_complete b kept1 n1 -> remove_complete b kept2 n2 ->
  kept1 = kept2 /\ n1 = n2.
Proof.
  intros H1. revert kept2 n2.
  induction H1 as [|row b kept n Hf _ IH|row b kept n He _ IH];
    intros kept2 n2 H2; inversion H2; subst.
  - split; reflexivity.
  - destruct (IH _ _ ltac:(eassumption)) as [-> ->]. split; reflexivity.
  - exfalso. rewrite List.Forall_forall in Hf. rewrite List.Exists_exists in *.
    match goal with E : exists _, _ |- _ => destruct E as (c & Hin & Hc) end.
    exact (filled_not_empty c (Hf c Hin) Hc).
  - exfalso. rewrite List.Exists_exists in He. destruct He as (c & Hin & Hc).
    match goal with F : Forall filled _ |- _ => rewrite List.Forall_forall in F;
      exact (filled_not_empty c (F c Hin) Hc) end.
  - destruct (IH _ _ ltac:(eassumption)) as [-> ->]. split; reflexivity.
Qed.

(** Rows kept by the relation stay in their relative order. *)
Lemma remove_complete_sublist b kept n :
  remove_complete b kept n -> sublist kept b.
Proof.
  induction 1; [constructor | apply sublist_cons; assumption
               | apply sublist_skip; assumption].
Qed.

Lemma remove_complete_length b kept n :
  remove_complete b kept n -> length b = (n + length kept)%nat.
Proof. induction 1; simpl; lia. Qed.

(** C1.  On a grid of H = 20 rows and W = 10 columns, [clearLines] drops
    exactly the rows all of whose cells are filled, keeps every row that
    has an empty cell, in the same relative order, puts on top as many
    rows as it dropped, each of W cells that are all empty, returns a
    board of H rows, and returns the number of dropped rows, which lies
    between 0 and H. *)
Theorem clearLines_removes_complete_rows (board : Board) :
  is_grid board = true ->
  exists (kept : Board) (n : nat) (prepended : Board),
    remove_complete board kept n /\
    sublist kept board /\
    clearLines board = (prepended ++ kept, Z.of_nat n) /\
    length prepended = n /\
    Forall (fun row => Z.of_nat (length row) = BOARD_WIDTH /\ Forall empty row)
           prepended /\
    prepended = replicate n (replicate (Z.to_nat BOARD_WIDTH) (Num 0)) /\
    length (fst (clearLines board)) = Z.to_nat BOARD_HEIGHT /\
    0 <= snd (clearLines board) <= BOARD_HEIGHT.
Proof.
  intros Hg.
  pose proof (is_grid_height board Hg) as Hlen.
  pose proof (filter_remove_complete board (is_grid_nums board Hg)) as Hrc.
  pose proof (List.filter_length_le has_empty_cell board) as Hle.
  set (kept := List.filter has_empty_cell board) in *.
  assert (Hcl : clearLines board
                = (replicate (length board - length kept) empty_row ++ kept,
                   Z.of_nat (length board - length kept))).
  { unfold clearLines. fold kept. rewrite unshift_empty_rows_eq.
    unfold BOARD_HEIGHT. rewrite Hlen. f_equal. lia. }
  exists kept, (length board - length kept)%nat,
         (replicate (length board - length kept) empty_row).
  split; [exact Hrc|]. split; [eapply remove_complete_sublist; exact Hrc|].
  split; [exact Hcl|]. split; [apply length_replicate|].
  split.
  { apply Forall_replicate. split.
    - unfold empty_row. rewrite length_replicate. unfold BOARD_WIDTH. lia.
    - unfold empty_row. apply Forall_replicate. reflexivity. }
  split; [reflexivity|].
  rewrite Hcl. simpl fst. simpl snd.
  rewrite length_app, length_replicate. unfold BOARD_HEIGHT. lia.
Qed.

(** ** isValidPosition *)

Section Collision.
Variable board : Board.
Variable pos : Position.
Hypothesis Hheight : length board = 20%nat.

Lemma isValidPosition_row_spec (yi : Z) (row : Row) : forall xi : Z,
  exists ok,
    isValidPosition_row board pos yi xi row = Ok ok /\
    (ok = true <->
     forall (k : nat) c, row !! k = Some c -> truthy c = true ->
                         cell_fits board pos yi (xi + Z.of_nat k)).
Proof.
  induction row as [|c rest IH]; intros xi.
  - exists true. split; [reflexivity|]. split; [|reflexivity].
    intros _ k c Hk. destruct k; discriminate.
  - assert (Hstep : forall ok,
              (ok = true <->
               forall (k : nat) c', rest !! k = Some c' -> truthy c' = true ->
                                    cell_fits board pos yi (xi + 1 + Z.of_nat k)) ->
              (truthy c = true -> cell_fits board pos yi xi) ->
              (ok = true <->
               forall (k : nat) c', (c :: rest) !! k = Some c' -> truthy c' = true ->
                                    cell_fits board pos yi (xi + Z.of_nat k))).
    { intros ok Hok Hhead. rewrite Hok. split.
      - intros Hall [|k] c' Hk Ht; simpl in Hk.
        + inversion Hk; subst. rewrite Z.add_0_r. auto.
        + replace (xi + Z.of_nat (S k)) with (xi + 1 + Z.of_nat k) by lia. eauto.
      - intros Hall k c' Hk Ht.
        replace (xi + 1 + Z.of_nat k) with (xi + Z.of_nat (S k)) by lia.
        apply (Hall (S k) c'); assumption. }
    assert (Hfail : ~ cell_fits board pos yi xi -> truthy c = true ->
              (false = true <->
               forall (k : nat) c', (c :: rest) !! k = Some c' -> truthy c' = true ->
                                    cell_fits board pos yi (xi + Z.of_nat k))).
    { intros Hno Ht. split; [discriminate|]. intros Hall. exfalso. apply Hno.
      specialize (Hall 0%nat c eq_refl Ht). rewrite Z.add_0_r in Hall. exact Hall. }
    simpl. destruct (truthy c) eqn:Ht.
    + destruct ((pos.(x) + xi <? 0) || (pos.(x) + xi >=? BOARD_WIDTH)
                || (pos.(y) + yi >=? BOARD_HEIGHT)) eqn:Hout.
      * exists false. split; [reflexivity|]. apply Hfail; [|reflexivity].
        unfold cell_fits. intros (Hx & Hy & _).
        apply orb_prop in Hout as [Hout|Hout]; [apply orb_prop in Hout as [Hout|Hout]|]; lia.
      * apply orb_false_elim in Hout as [Hout Hy].
        apply orb_false_elim in Hout as [Hx0 Hx1].
        destruct (pos.(y) + yi >=? 0) eqn:Hy0.
        -- destruct (board !! Z.to_nat (pos.(y) + yi)) as [brow|] eqn:Hrow.
           ++ destruct (truthy (array_get brow (Z.to_nat (pos.(x) + xi)))) eqn:Hcell.
              ** exists false. split; [reflexivity|]. apply Hfail; [|reflexivity].
                 unfold cell_fits, cell_at, filled. rewrite Hrow.
                 intros (_ & _ & Hfree). apply Hfree; [lia | exact Hcell].
              ** destruct (IH (xi + 1)) as (ok & Hrun & Hok).
                 exists ok. split; [exact Hrun|]. apply Hstep; [exact Hok|].
                 intros _. unfold cell_fits, cell_at, filled. rewrite Hrow, Hcell.
                 unfold BOARD_WIDTH, BOARD_HEIGHT in *.
                 repeat split; try lia; try (intros; discriminate).
           ++ exfalso. apply lookup_ge_None in Hrow.
              unfold BOARD_HEIGHT in *. lia.
        -- destruct (IH (xi + 1)) as (ok & Hrun & Hok).
           exists ok. split; [exact Hrun|]. apply Hstep; [exact Hok|].
           intros _. unfold cell_fits. unfold BOARD_WIDTH, BOARD_HEIGHT in *.
           repeat split; try lia.
    + destruct (IH (xi + 1)) as (ok & Hrun & Hok).
      exists ok. split; [exact Hrun|]. apply Hstep; [exact Hok|]. discriminate.
Qed.

Lemma isValidPosition_rows_spec (rows : Shape) : forall yi : Z,
  exists ok,
    isValidPosition_rows board pos yi rows = Ok ok /\
    (ok = true <->
     forall (j k : nat) row c,
       rows !! j = Some row -> row !! k = Some c -> truthy c = true ->
       cell_fits board pos (yi + Z.of_nat j) (Z.of_nat k)).
Proof.
  induction rows as [|row rest IH]; intros yi.
  - exists true. split; [reflexivity|]. split; [|reflexivity].
    intros _ j k row c Hj. destruct j; discriminate.
  - simpl. destruct (isValidPosition_row_spec yi row 0) as (ok1 & Hrun1 & Hok1).
    rewrite Hrun1. simpl. destruct ok1.
    + destruct (IH (yi + 1)) as (ok & Hrun & Hok).
      exists ok. split; [exact Hrun|]. rewrite Hok. split.
      * intros Hall [|j] k row' c Hj Hk Ht; simpl in Hj.
        -- inversion Hj; subst. rewrite Z.add_0_r.
           apply (proj1 Hok1 eq_refl k c); assumption.
        -- replace (yi + Z.of_nat (S j)) with (yi + 1 + Z.of_nat j) by lia. eauto.
      * intros Hall j k row' c Hj Hk Ht.
        replace (yi + 1 + Z.of_nat j) with (yi + Z.of_nat (S j)) by lia.
        apply (Hall (S j) k row' c); assumption.
    + exists false. split; [reflexivity|]. split; [discriminate|].
      intros Hall. apply Hok1. intros k c Hk Ht.
      specialize (Hall 0%nat k row c eq_refl Hk Ht).
      rewrite Z.add_0_r in Hall. exact Hall.
Qed.
End Collision.

(** C2.  For every shape, candidate position and board of H rows,
    [isValidPosition] returns, and it returns [true] exactly when every
    set cell of the shape maps to a column in [0, W), to a row below H
    (rows above the grid, with negative index, are allowed), and, when that
    row is on the grid, to a board cell that is not filled.  The embedded
    function has a [result bool] as its only output: the source assigns to
    nothing but its loop counters and locals, so board and piece are left
    as they were. *)
Theorem isValidPosition_iff (board : Board) (piece : Piece)
    (newPosition : Position) (newShape : option Shape) :
  Z.of_nat (length board) = BOARD_HEIGHT ->
  exists ok : bool,
    isValidPosition board piece newPosition newShape = Ok ok /\
    (ok = true <->
     forall yi xi : nat,
       set_cell (match newShape with Some s => s | None => piece.(shape) end) yi xi ->
       0 <= newPosition.(x) + Z.of_nat xi < BOARD_WIDTH /\
       newPosition.(y) + Z.of_nat yi < BOARD_HEIGHT /\
       (0 <= newPosition.(y) + Z.of_nat yi ->
        ~ filled (cell_at board (Z.to_nat (newPosition.(y) + Z.of_nat yi))
                          (Z.to_nat (newPosition.(x) + Z.of_nat xi))))).
Proof.
  intros Hlen. unfold BOARD_HEIGHT in Hlen. unfold isValidPosition.
  destruct (isValidPosition_rows_spec board newPosition ltac:(lia)
              (match newShape with Some s => s | None => piece.(shape) end) 0)
    as (ok & Hrun & Hok).
  exists ok. split; [exact Hrun|]. rewrite Hok. split.
  - intros Hall yi xi (row & c & Hrow & Hc & Ht).
    exact (Hall yi xi row c Hrow Hc Ht).
  - intros Hall j k row c Hrow Hc Ht. apply (Hall j k).
    exists row, c. auto.
Qed.

(** ** placePiece *)

Lemma array_get_set (a : Row) (i : Z) (v : cell) (c : nat) :
  array_get (array_set a i v) c
  = if i =? Z.of_nat c then v else array_get a c.
Proof.
  unfold array_set, array_get.
  destruct (i <? 0) eqn:Hneg.
  - destruct (i =? Z.of_nat c) eqn:He; [zabsurd | reflexivity].
  - destruct (i <? Z.of_nat (length a)) eqn:Hin.
    + destruct (i =? Z.of_nat c) eqn:He.
      * assert (Z.to_nat i = c) as -> by zlia.
        rewrite list_lookup_insert_eq by zlia. reflexivity.
      * rewrite list_lookup_insert_ne by zlia. reflexivity.
    + destruct (decide (c < length a)%nat) as [Hc|Hc].
      * rewrite lookup_app_l by exact Hc.
        destruct (i =? Z.of_nat c) eqn:He; [zabsurd | reflexivity].
      * rewrite lookup_app_r by zlia.
        rewrite (proj2 (lookup_ge_None a c)) by zlia.
        destruct (decide (c - length a < Z.to_nat i - length a)%nat) as [Hh|Hh].
        -- rewrite lookup_app_l by (rewrite length_replicate; exact Hh).
           rewrite lookup_replicate_2 by exact Hh.
           destruct (i =? Z.of_nat c) eqn:He; [zabsurd | reflexivity].
        -- rewrite lookup_app_r by (rewrite length_replicate; zlia).
           rewrite length_replicate.
           destruct (i =? Z.of_nat c) eqn:He.
           ++ replace (c - length a - (Z.to_nat i - length a))%nat with 0%nat by zlia.
              reflexivity.
           ++ destruct (c - length a - (Z.to_nat i - length a))%nat eqn:Hd; [zabsurd|].
              reflexivity.
Qed.

Lemma cell_at_insert (b : Board) (r0 : nat) (row' : Row) (r c : nat) :
  (r0 < length b)%nat ->
  cell_at (<[r0 := row']> b) r c
  = if Nat.eqb r0 r then array_get row' c else cell_at b r c.
Proof.
  intros Hlt. unfold cell_at. destruct (Nat.eqb r0 r) eqn:He.
  - apply Nat.eqb_eq in He. subst r. rewrite list_lookup_insert_eq by exact Hlt.
    reflexivity.
  - apply Nat.eqb_neq in He. rewrite list_lookup_insert_ne by exact He. reflexivity.
Qed.

Section Merge.
Variable pos : Position.

Lemma placePiece_row_spec (yi : Z) (row : Row) : forall (newBoard : Board) (xi : Z),
  (existsb truthy row = true -> pos.(y) + yi < Z.of_nat (length newBoard)) ->
  exists b',
    placePiece_row newBoard pos yi xi row = Ok b' /\
    length b' = length newBoard /\
    forall r c : nat,
      cell_at b' r c
      = if row_covers pos yi xi row r c then Num 1 else cell_at newBoard r c.
Proof.
  induction row as [|cell rest IH]; intros newBoard xi Hfloor.
  - exists newBoard. repeat split; reflexivity.
  - simpl in Hfloor. simpl. destruct (truthy cell) eqn:Ht; simpl in *.
    + specialize (Hfloor eq_refl).
      destruct (pos.(y) + yi >=? 0) eqn:Hy0.
      * destruct (newBoard !! Z.to_nat (pos.(y) + yi)) as [brow|] eqn:Hrow.
        -- assert (Hlt : (Z.to_nat (pos.(y) + yi) < length newBoard)%nat) by zlia.
           destruct (IH (<[Z.to_nat (pos.(y) + yi)
                           := array_set brow (pos.(x) + xi) (Num 1)]> newBoard) (xi + 1))
             as (b' & Hrun & Hlen & Hcells).
           { rewrite length_insert. intros _. exact Hfloor. }
           exists b'. split; [exact Hrun|].
           rewrite length_insert in Hlen. split; [exact Hlen|].
           intros r c. rewrite Hcells.
           destruct (row_covers pos yi (xi + 1) rest r c);
             [rewrite orb_true_r; reflexivity|].
           rewrite orb_false_r, cell_at_insert by exact Hlt.
           destruct (pos.(y) + yi =? Z.of_nat r) eqn:Hr.
           ++ replace (Nat.eqb (Z.to_nat (pos.(y) + yi)) r) with true
                by (symmetry; apply Nat.eqb_eq; zlia).
              rewrite array_get_set. simpl.
              destruct (pos.(x) + xi =? Z.of_nat c); [reflexivity|].
              unfold cell_at.
              replace r with (Z.to_nat (pos.(y) + yi)) by zlia.
              rewrite Hrow. reflexivity.
           ++ replace (Nat.eqb (Z.to_nat (pos.(y) + yi)) r) with false
                by (symmetry; apply Nat.eqb_neq; zlia).
              reflexivity.
        -- apply lookup_ge_None in Hrow. zabsurd.
      * destruct (IH newBoard (xi + 1)) as (b' & Hrun & Hlen & Hcells);
          [intros _; exact Hfloor|].
        exists b'. split; [exact Hrun|]. split; [exact Hlen|].
        intros r c. rewrite Hcells.
        replace (pos.(y) + yi =? Z.of_nat r) with false
          by (symmetry; apply Z.eqb_neq; zlia).
        reflexivity.
    + destruct (IH newBoard (xi + 1) Hfloor) as (b' & Hrun & Hlen & Hcells).
      exists b'. split; [exact Hrun|]. split; [exact Hlen|]. exact Hcells.
Qed.

Lemma placePiece_rows_spec (rows : Shape) : forall (newBoard : Board) (yi : Z),
  (forall (j : nat) row, rows !! j = Some row -> existsb truthy row = true ->
                         pos.(y) + yi + Z.of_nat j < Z.of_nat (length newBoard)) ->
  exists b',
    placePiece_rows newBoard pos yi rows = Ok b' /\
    length b' = length newBoard /\
    forall r c : nat,
      cell_at b' r c
      = if rows_cover pos yi rows r c then Num 1 else cell_at newBoard r c.
Proof.
  induction rows as [|row rest IH]; intros newBoard yi Hfloor.
  - exists newBoard. repeat split; reflexivity.
  - simpl. destruct (placePiece_row_spec yi row newBoard 0) as (b1 & Hrun1 & Hlen1 & Hc1).
    { intros Ht. specialize (Hfloor 0%nat row eq_refl Ht). lia. }
    rewrite Hrun1. simpl.
    destruct (IH b1 (yi + 1)) as (b' & Hrun & Hlen & Hcells).
    { intros j row' Hj Ht. rewrite Hlen1.
      specialize (Hfloor (S j) row' Hj Ht). lia. }
    exists b'. split; [exact Hrun|]. split; [congruence|].
    intros r c. rewrite Hcells, Hc1.
    destruct (row_covers pos yi 0 row r c), (rows_cover pos (yi + 1) rest r c);
      reflexivity.
Qed.
End Merge.

Lemma row_covers_iff pos yi row r c : forall xi,
  row_covers pos yi xi row r c = true <->
  exists (k : nat) cell,
    row !! k = Some cell /\ truthy cell = true /\
    pos.(y) + yi = Z.of_nat r /\ pos.(x) + xi + Z.of_nat k = Z.of_nat c.
Proof.
  induction row as [|cell rest IH]; intros xi; simpl.
  - split; [discriminate|]. intros (k & cell & Hk & _). destruct k; discriminate.
  - rewrite orb_true_iff, IH, !andb_true_iff, !Z.eqb_eq. split.
    + intros [[[Ht Hr] Hc]|(k & cell' & Hk & Ht & Hr & Hc)].
      * exists 0%nat, cell. repeat split; auto; lia.
      * exists (S k), cell'. repeat split; auto; lia.
    + intros ([|k] & cell' & Hk & Ht & Hr & Hc); simpl in Hk.
      * inversion Hk; subst. left. repeat split; auto; lia.
      * right. exists k, cell'. repeat split; auto; lia.
Qed.

Lemma rows_cover_iff pos rows r c : forall yi,
  rows_cover pos yi rows r c = true <->
  exists (j k : nat) row cell,
    rows !! j = Some row /\ row !! k = Some cell /\ truthy cell = true /\
    pos.(y) + yi + Z.of_nat j = Z.of_nat r /\ pos.(x) + Z.of_nat k = Z.of_nat c.
Proof.
  induction rows as [|row rest IH]; intros yi; simpl.
  - split; [discriminate|]. intros (j & k & row & cell & Hj & _). destruct j; discriminate.
  - rewrite orb_true_iff, IH, row_covers_iff. split.
    + intros [(k & cell & Hk & Ht & Hr & Hc)|(j & k & row' & cell & Hj & Hk & Ht & Hr & Hc)].
      * exists 0%nat, k, row, cell. repeat split; auto; lia.
      * exists (S j), k, row', cell. repeat split; auto; lia.
    + intros ([|j] & k & row' & cell & Hj & Hk & Ht & Hr & Hc); simpl in Hj.
      * inversion Hj; subst. left. exists k, cell. repeat split; auto; lia.
      * right. exists j, k, row', cell. repeat split; auto; lia.
Qed.

Lemma covers_iff piece r c :
  covers piece r c <-> rows_cover piece.(position) 0 piece.(shape) r c = true.
Proof.
  rewrite rows_cover_iff. unfold covers, set_cell. split.
  - intros (yi & xi & (row & cell & Hrow & Hcell & Ht) & Hr & Hc).
    exists yi, xi, row, cell. repeat split; auto; lia.
  - intros (j & k & row & cell & Hj & Hk & Ht & Hr & Hc).
    exists j, k. split; [exists row, cell; auto|]. split; lia.
Qed.

(** The merge never shortens or lengthens the board. *)
Lemma placePiece_length board piece newBoard :
  placePiece board piece = Ok newBoard -> length newBoard = length board.
Proof.
  unfold placePiece. rewrite map_id.
  generalize (position piece) as pos, 0 as yi. revert board newBoard.
  assert (Hrow : forall row pos yi xi b b',
             placePiece_row b pos yi xi row = Ok b' -> length b' = length b).
  { induction row as [|cell rest IH]; intros pos yi xi b b'; simpl.
    - intros [= ->]. reflexivity.
    - destruct (truthy cell); [|apply IH].
      destruct (y pos + yi >=? 0); [|apply IH].
      destruct (b !! Z.to_nat (y pos + yi)); [|discriminate].
      intros Hrun. apply IH in Hrun. rewrite length_insert in Hrun. exact Hrun. }
  induction (shape piece) as [|row rest IH]; intros board newBoard pos yi; simpl.
  - intros [= ->]. reflexivity.
  - destruct (placePiece_row board pos yi 0 row) as [b1|] eqn:H1; simpl; [|discriminate].
    intros Hrun. apply IH in Hrun. apply Hrow in H1. congruence.
Qed.

(** C3, for a piece above the floor.  For every board and every piece none of whose set cells
    maps to a row at or below the floor of the board, the merge returns a
    board in which exactly the cells onto which a set shape cell maps hold
    1; set cells that map to a negative row reach no cell and are dropped
    without an exception; every other cell keeps its value. *)
Theorem placePiece_marks_covered_cells (board : Board) (piece : Piece) :
  (forall yi xi : nat,
     set_cell piece.(shape) yi xi ->
     piece.(position).(y) + Z.of_nat yi < Z.of_nat (length board)) ->
  exists newBoard : Board,
    placePiece board piece = Ok newBoard /\
    length newBoard = length board /\
    forall r c : nat,
      (covers piece r c -> cell_at newBoard r c = Num 1) /\
      (~ covers piece r c -> cell_at newBoard r c = cell_at board r c).
Proof.
  intros Hfloor. unfold placePiece. rewrite map_id.
  destruct (placePiece_rows_spec piece.(position) piece.(shape) board 0)
    as (b' & Hrun & Hlen & Hcells).
  { intros j row Hj Ht. apply existsb_exists in Ht as (c & Hin & Ht).
    apply list_elem_of_In, list_elem_of_lookup_1 in Hin as [k Hk].
    specialize (Hfloor j k). rewrite Z.add_0_r. apply Hfloor.
    exists row, c. auto. }
  exists b'. split; [exact Hrun|]. split; [exact Hlen|].
  intros r c. rewrite Hcells, covers_iff.
  destruct (rows_cover (position piece) 0 (shape piece) r c).
  - split; [reflexivity | intros Hn; exfalso; apply Hn; reflexivity].
  - split; [discriminate | reflexivity].
Qed.

(** ** rotatePiece *)

Lemma lookup_map {A B : Type} (f : A -> B) (l : list A) (i : nat) :
  map f l !! i = f <$> (l !! i).
Proof.
  revert i. induction l as [|a l IH]; intros [|i]; simpl; auto.
Qed.

Lemma rect_lookup R C m i :
  rect R C m -> (i < R)%nat -> exists row, m !! i = Some row /\ length row = C.
Proof.
  intros [Hlen Hrows] Hi.
  destruct (lookup_lt_is_Some_2 m i) as [row Hrow]; [lia|].
  exists row. split; [exact Hrow|].
  exact (Forall_lookup_1 _ _ _ _ Hrows Hrow).
Qed.

(** Two matrices of the same dimensions with the same entries are equal. *)
Lemma rect_ext R C m m' :
  rect R C m -> rect R C m' ->
  (forall i j, (i < R)%nat -> (j < C)%nat -> cell_at m i j = cell_at m' i j) ->
  m = m'.
Proof.
  intros Hm Hm' Hcells.
  apply (list_eq_same_length _ _ R); [apply Hm' | apply Hm |].
  intros i row row' Hi Hrow Hrow'.
  assert (Hl : length row = C) by (exact (Forall_lookup_1 _ _ _ _ (proj2 Hm) Hrow)).
  assert (Hl' : length row' = C) by (exact (Forall_lookup_1 _ _ _ _ (proj2 Hm') Hrow')).
  apply (list_eq_same_length _ _ C); [exact Hl' | exact Hl |].
  intros j c c' Hj Hc Hc'. specialize (Hcells i j Hi Hj).
  unfold cell_at, array_get in Hcells. rewrite Hrow, Hrow', Hc, Hc' in Hcells.
  exact Hcells.
Qed.

(** One rotation: C rows of R entries, with [output[c][R-1-r] = input[r][c]]. *)
Lemma rotatePiece_rect R C m :
  rect R C m -> (0 < R)%nat ->
  exists m',
    rotatePiece m = Ok m' /\ rect C R m' /\
    forall i j, (i < C)%nat -> (j < R)%nat ->
                cell_at m' i j = cell_at m (R - 1 - j) i.
Proof.
  intros Hm HR. destruct (rect_lookup R C m 0 Hm HR) as (row0 & Hrow0 & Hl0).
  unfold rotatePiece. rewrite Hrow0, Hl0.
  eexists. split; [reflexivity|]. split.
  - split.
    + rewrite length_map, length_seq. reflexivity.
    + apply Forall_lookup. intros i row Hrow.
      rewrite lookup_map in Hrow.
      destruct (seq 0 C !! i) as [k|]; [|discriminate].
      injection Hrow as <-.
      rewrite length_reverse, length_map. apply Hm.
  - intros i j Hi Hj. unfold cell_at at 1.
    rewrite lookup_map, lookup_seq_lt by exact Hi. simpl.
    unfold array_get at 1.
    rewrite reverse_lookup by (rewrite length_map; destruct Hm; lia).
    rewrite length_map, lookup_map.
    destruct Hm as [Hlen Hrows]. rewrite Hlen.
    replace (R - S j)%nat with (R - 1 - j)%nat by lia.
    unfold cell_at. destruct (m !! (R - 1 - j)%nat) as [row|] eqn:Hrow; simpl.
    + reflexivity.
    + apply lookup_ge_None in Hrow. lia.
Qed.

(** C6, for a matrix with rows and columns.  For every shape matrix of R >= 1 rows and C >= 1
    columns, four successive rotations by [rotatePiece] return the
    original matrix. *)
Theorem rotatePiece_four_times (R C : nat) (shape : Shape) :
  rect R C shape -> (0 < R)%nat -> (0 < C)%nat ->
  rotate4 shape = Ok shape.
Proof.
  intros Hm HR HC. unfold rotate4.
  destruct (rotatePiece_rect R C shape Hm HR) as (s1 & -> & Hs1 & E1). simpl.
  destruct (rotatePiece_rect C R s1 Hs1 HC) as (s2 & -> & Hs2 & E2). simpl.
  destruct (rotatePiece_rect R C s2 Hs2 HR) as (s3 & -> & Hs3 & E3). simpl.
  destruct (rotatePiece_rect C R s3 Hs3 HC) as (s4 & -> & Hs4 & E4).
  f_equal. apply (rect_ext R C); [exact Hs4 | exact Hm |].
  intros i j Hi Hj.
  rewrite E4, E3, E2, E1 by lia.
  f_equal; lia.
Qed.

(** ** movePieceDown *)

Lemma remove_complete_filter b kept n :
  remove_complete b kept n ->
  List.filter has_empty_cell b = kept /\ length b = (n + length kept)%nat.
Proof.
  induction 1 as [|row b kept n Hf _ [IH1 IH2]|row b kept n He _ [IH1 IH2]]; simpl.
  - split; reflexivity.
  - assert (Hr : has_empty_cell row = false).
    { unfold has_empty_cell. apply not_true_is_false. intros Hex.
      apply existsb_exists in Hex as (c & Hin & Hz).
      rewrite List.Forall_forall in Hf. specialize (Hf c Hin).
      destruct c as [z|]; unfold filled in Hf; simpl in *; [|discriminate].
      rewrite Hz in Hf. discriminate. }
    rewrite Hr. split; [exact IH1 | lia].
  - assert (Hr : has_empty_cell row = true).
    { unfold has_empty_cell. apply existsb_exists.
      rewrite List.Exists_exists in He. destruct He as (c & Hin & ->).
      exists (Num 0). split; [exact Hin | reflexivity]. }
    rewrite Hr. simpl. split; [f_equal; exact IH1 | lia].
Qed.

Lemma clearLines_of_height (b : Board) :
  length b = 20%nat ->
  clearLines b
  = (replicate (20 - length (List.filter has_empty_cell b)) empty_row
       ++ List.filter has_empty_cell b,
     20 - Z.of_nat (length (List.filter has_empty_cell b))).
Proof.
  intros Hlen. unfold clearLines. rewrite unshift_empty_rows_eq. reflexivity.
Qed.

Lemma isValidPosition_total board piece pos newShape :
  length board = 20%nat ->
  exists ok, isValidPosition board piece pos newShape = Ok ok.
Proof.
  intros Hlen. unfold isValidPosition.
  destruct (isValidPosition_rows_spec board pos Hlen
              (match newShape with Some s => s | None => shape piece end) 0)
    as (ok & Hrun & _).
  exists ok. exact Hrun.
Qed.

(** C4.  At a landing (the piece cannot go one row down) on a board of H
    rows, with [n] complete rows in the merged board and the level at [L]
    in the render of the handler, the committed score is the old one plus
    [n * 100 * L] and the committed line count is the old one plus [n];
    the handler itself leaves the level as it was. *)
Theorem movePieceDown_scores_cleared_rows
    (st : GameState) (randomType : TetrominoType)
    (piece : Piece) (merged kept : Board) (n : nat) :
  Z.of_nat (length st.(board)) = BOARD_HEIGHT ->
  st.(currentPiece) = Some piece ->
  st.(gameOver) = false ->
  st.(isPaused) = false ->
  isValidPosition st.(board) piece
    {| x := piece.(position).(x); y := piece.(position).(y) + 1 |} None = Ok false ->
  placePiece st.(board) piece = Ok merged ->
  remove_complete merged kept n ->
  exists st',
    movePieceDown st randomType = Returned st' /\
    st'.(score) = st.(score) + Z.of_nat n * 100 * st.(level) /\
    st'.(lines) = st.(lines) + Z.of_nat n /\
    st'.(level) = st.(level) /\
    st'.(board) = replicate n empty_row ++ kept.
Proof.
  intros Hg Hcur Hover Hpause Hland Hmerge Hrc.
  assert (Hlen : length st.(board) = 20%nat) by (unfold BOARD_HEIGHT in Hg; lia).
  pose proof (placePiece_length _ _ _ Hmerge) as Hlen'.
  destruct (remove_complete_filter _ _ _ Hrc) as [Hkept Hn].
  unfold movePieceDown. rewrite Hcur, Hover, Hpause. simpl orb. cbv iota.
  rewrite Hland, Hmerge.
  rewrite clearLines_of_height by congruence. rewrite Hkept.
  assert (Hcount : 20 - Z.of_nat (length kept) = Z.of_nat n) by lia.
  assert (Hpad : (20 - length kept)%nat = n) by lia.
  rewrite Hcount, Hpad.
  destruct (isValidPosition_total st.(board) (createRandomPiece randomType)
              (createRandomPiece randomType).(position) None Hlen) as (ok & Hok).
  rewrite Hok. destruct ok; eexists; (split; [reflexivity|]); simpl; auto.
Qed.

Lemma movePieceDown_lines_level (st : GameState) (randomType : TetrominoType) :
  length st.(board) = 20%nat ->
  st.(lines) <= (committed (movePieceDown st randomType)).(lines) /\
  (committed (movePieceDown st randomType)).(level) = st.(level).
Proof.
  intros Hlen. unfold movePieceDown.
  destruct (currentPiece st) as [piece|]; [|simpl; lia].
  destruct (gameOver st || isPaused st); [simpl; lia|].
  destruct (isValidPosition _ piece _ None) as [[|]|]; try (simpl; lia).
  destruct (placePiece (board st) piece) as [merged|] eqn:Hmerge; [|simpl; lia].
  apply placePiece_length in Hmerge.
  rewrite clearLines_of_height by congruence.
  pose proof (List.filter_length_le has_empty_cell merged) as Hle.
  destruct (isValidPosition _ (createRandomPiece randomType) _ None) as [[|]|];
    simpl; lia.
Qed.

Lemma levelOf_mono (l1 l2 : Z) : l1 <= l2 -> levelOf l1 <= levelOf l2.
Proof.
  intros Hle. unfold levelOf.
  pose proof (Z.div_le_mono l1 l2 10 ltac:(lia) Hle). lia.
Qed.

(** C5.  After a tick on a board of H rows, the line count has not decreased; if it
    changed (a line-clear event) the level is [floor(lines / 10) + 1] for
    the new count; and a level that was [floor(lines / 10) + 1] before the
    tick is so afterwards and has not decreased. *)
Theorem level_follows_lines (st : GameState) (randomType : TetrominoType) :
  Z.of_nat (length st.(board)) = BOARD_HEIGHT ->
  st.(lines) <= (tick st randomType).(lines) /\
  ((tick st randomType).(lines) <> st.(lines) ->
   (tick st randomType).(level) = (tick st randomType).(lines) / 10 + 1) /\
  (st.(level) = st.(lines) / 10 + 1 ->
   (tick st randomType).(level) = (tick st randomType).(lines) / 10 + 1 /\
   st.(level) <= (tick st randomType).(level)).
Proof.
  intros Hg.
  destruct (movePieceDown_lines_level st randomType
              ltac:(unfold BOARD_HEIGHT in Hg; lia)) as [Hlines Hlevel].
  unfold tick, step, handle, levelEffect.
  set (st' := committed (movePieceDown st randomType)) in *.
  destruct (lines st =? lines st') eqn:He.
  - apply Z.eqb_eq in He. split; [lia|]. split; [congruence|].
    intros Hinv. rewrite Hlevel, <- He. split; [exact Hinv | lia].
  - apply Z.eqb_neq in He. simpl. split; [exact Hlines|]. split; [reflexivity|].
    intros Hinv. split; [reflexivity|]. rewrite Hinv.
    apply levelOf_mono. exact Hlines.
Qed.

(** The guard at the head of [movePieceDown]. *)
Lemma movePieceDown_guard (st : GameState) (randomType : TetrominoType) :
  st.(currentPiece) = None \/ st.(gameOver) = true \/ st.(isPaused) = true ->
  movePieceDown st randomType = Returned st.
Proof.
  intros Hguard. unfold movePieceDown.
  destruct (currentPiece st); [|reflexivity].
  destruct Hguard as [Hn|[-> | ->]]; [discriminate | reflexivity |].
  rewrite orb_true_r. reflexivity.
Qed.

Lemma tick_of_unchanged (st : GameState) (randomType : TetrominoType) :
  movePieceDown st randomType = Returned st -> tick st randomType = st.
Proof.
  intros Hrun. unfold tick, step, handle, levelEffect. rewrite Hrun. simpl.
  rewrite Z.eqb_refl. reflexivity.
Qed.

(** C9.  While the game is paused, a tick returns at once and commits the
    state it found: grid, piece, score, lines, level and both flags are
    the same before and after, and the level effect has nothing to do. *)
Theorem movePieceDown_paused_unchanged (st : GameState) (randomType : TetrominoType) :
  st.(isPaused) = true ->
  movePieceDown st randomType = Returned st /\ tick st randomType = st.
Proof.
  intros Hp.
  assert (Hrun : movePieceDown st randomType = Returned st)
    by (apply movePieceDown_guard; auto).
  split; [exact Hrun | apply tick_of_unchanged; exact Hrun].
Qed.

(** C10.  Without a current piece, or once the game is over, a tick is a
    no-op: nothing is merged, cleared, scored or spawned, and the committed
    state is the one found. *)
Theorem movePieceDown_no_piece_or_over (st : GameState) (randomType : TetrominoType) :
  st.(currentPiece) = None \/ st.(gameOver) = true ->
  movePieceDown st randomType = Returned st /\ tick st randomType = st.
Proof.
  intros Hg.
  assert (Hrun : movePieceDown st randomType = Returned st)
    by (apply movePieceDown_guard; tauto).
  split; [exact Hrun | apply tick_of_unchanged; exact Hrun].
Qed.

(** ** handleKeyPress and the pause toggle *)

(** C7.  The guard at the head of [handleKeyPress] also covers the pause
    key: while paused, every key press, "p" and "P" included, returns with
    the state as it was, still paused. *)
Theorem handleKeyPress_ignored_while_paused
    (st : GameState) (key : string) (randomType : TetrominoType) :
  st.(isPaused) = true ->
  handleKeyPress st key randomType = Returned st.
Proof.
  intros Hp. unfold handleKeyPress.
  destruct (currentPiece st); [|reflexivity].
  rewrite Hp, orb_true_r. reflexivity.
Qed.

(** While the game runs, the pause key does flip the flag. *)
Lemma handleKeyPress_p_pauses (st : GameState) (piece : Piece) (randomType : TetrominoType) :
  st.(currentPiece) = Some piece -> st.(gameOver) = false -> st.(isPaused) = false ->
  handleKeyPress st "p" randomType = Returned (setIsPaused st negb) /\
  (setIsPaused st negb).(isPaused) = true.
Proof.
  intros Hc Hg Hp. unfold handleKeyPress. rewrite Hc, Hg, Hp. simpl.
  unfold setIsPaused. rewrite Hp. split; reflexivity.
Qed.

(** The Pause / Resume button flips the flag in both states. *)
Lemma pauseButtonClick_toggles (st : GameState) :
  st.(gameOver) = false ->
  (pauseButtonClick st).(isPaused) = negb st.(isPaused).
Proof. intros Hg. unfold pauseButtonClick. rewrite Hg. reflexivity. Qed.

(** ** The spawn check after a landing *)

(** When the check made by the handler fails, the game is over and the
    current piece stays the one that landed. *)
Lemma movePieceDown_spawn_check_fails
    (st : GameState) (randomType : TetrominoType) (piece : Piece) (merged : Board) :
  st.(currentPiece) = Some piece ->
  st.(gameOver) = false ->
  st.(isPaused) = false ->
  isValidPosition st.(board) piece
    {| x := piece.(position).(x); y := piece.(position).(y) + 1 |} None = Ok false ->
  placePiece st.(board) piece = Ok merged ->
  isValidPosition st.(board) (createRandomPiece randomType)
    (createRandomPiece randomType).(position) None = Ok false ->
  exists st',
    movePieceDown st randomType = Returned st' /\
    st'.(gameOver) = true /\ st'.(currentPiece) = Some piece.
Proof.
  intros Hcur Hover Hpause Hland Hmerge Hspawn.
  unfold movePieceDown. rewrite Hcur, Hover, Hpause. simpl orb. cbv iota.
  rewrite Hland, Hmerge. destruct (clearLines merged) as [cleared count].
  rewrite Hspawn. eexists. split; [reflexivity|]. simpl. auto.
Qed.

(** C8.  The check reads the board of the render, not the board just
    merged.  The O piece lands in rows 0 and 1 on top of the stack; the T
    piece drawn next overlaps it, yet it passes the check against the old
    board: it becomes the current piece and the game goes on. *)
Theorem movePieceDown_spawn_check_uses_old_board :
  exists st',
    movePieceDown stacked_state Tet_T = Returned st' /\
    isValidPosition st'.(board) (createRandomPiece Tet_T)
      (createRandomPiece Tet_T).(position) None = Ok false /\
    st'.(gameOver) = false /\
    st'.(currentPiece) = Some (createRandomPiece Tet_T).
Proof.
  eexists. split; [vm_compute; reflexivity|]. vm_compute. auto.
Qed.

(** * The session invariant

    From the first render on, the board is a grid, the current piece is a
    non-empty square shape whose set cells are within the walls and above
    the floor, and the level follows the line count.  No handler raises on
    such a state: the inputs on which [placePiece] and [rotatePiece] raise
    are kept out by the collision check and by the tetromino table. *)

Lemma is_grid_iff b :
  is_grid b = true <-> length b = 20%nat /\ Forall good_row b.
Proof.
  unfold is_grid, good_row, BOARD_HEIGHT, BOARD_WIDTH.
  rewrite andb_true_iff, forallb_forall, List.Forall_forall. split.
  - intros [Hl Hr]. split; [lia|]. intros row Hin.
    specialize (Hr row Hin). apply andb_prop in Hr as [Hw Hn].
    split; [lia|]. rewrite forallb_forall in Hn. apply List.Forall_forall. exact Hn.
  - intros [Hl Hr]. split; [lia|]. intros row Hin.
    destruct (Hr row Hin) as [Hw Hn]. apply andb_true_intro. split; [lia|].
    apply forallb_forall. rewrite List.Forall_forall in Hn. exact Hn.
Qed.

Lemma in_bounds_of_valid board piece pos newShape :
  length board = 20%nat ->
  isValidPosition board piece pos newShape = Ok true ->
  in_bounds (match newShape with Some s => s | None => piece.(shape) end) pos.
Proof.
  intros Hlen Hrun. unfold isValidPosition in Hrun.
  destruct (isValidPosition_rows_spec board pos Hlen
              (match newShape with Some s => s | None => shape piece end) 0)
    as (ok & Hrun' & Hok).
  rewrite Hrun in Hrun'. injection Hrun' as <-.
  intros yi xi (row & c & Hrow & Hc & Ht).
  destruct (proj1 Hok eq_refl yi xi row c Hrow Hc Ht) as (Hx & Hy & _).
  rewrite Z.add_0_l in Hy. split; assumption.
Qed.

Lemma placePiece_row_good pos yi row : forall (newBoard : Board) (xi : Z) b',
  Forall good_row newBoard ->
  (forall (k : nat) cell, row !! k = Some cell -> truthy cell = true ->
                          0 <= pos.(x) + xi + Z.of_nat k < 10) ->
  placePiece_row newBoard pos yi xi row = Ok b' ->
  Forall good_row b'.
Proof.
  induction row as [|cell rest IH]; intros newBoard xi b' Hgood Hcols; simpl.
  - intros [= <-]. exact Hgood.
  - assert (Hrest : forall (k : nat) cell', rest !! k = Some cell' -> truthy cell' = true ->
                                            0 <= pos.(x) + (xi + 1) + Z.of_nat k < 10).
    { intros k cell' Hk Ht. specialize (Hcols (S k) cell' Hk Ht). lia. }
    destruct (truthy cell) eqn:Ht; [|apply IH; assumption].
    destruct (pos.(y) + yi >=? 0); [|apply IH; assumption].
    destruct (newBoard !! Z.to_nat (pos.(y) + yi)) as [brow|] eqn:Hrow; [|discriminate].
    apply IH; [|exact Hrest].
    apply Forall_insert; [exact Hgood|].
    destruct (Forall_lookup_1 _ _ _ _ Hgood Hrow) as [Hw Hn].
    specialize (Hcols 0%nat cell eq_refl Ht).
    unfold array_set.
    replace (pos.(x) + xi <? 0) with false by (symmetry; apply Z.ltb_ge; lia).
    replace (pos.(x) + xi <? Z.of_nat (length brow)) with true
      by (symmetry; apply Z.ltb_lt; lia).
    split; [rewrite length_insert; exact Hw|].
    apply Forall_insert; [exact Hn | reflexivity].
Qed.

Lemma placePiece_rows_good pos rows : forall (newBoard : Board) (yi : Z) b',
  Forall good_row newBoard ->
  (forall (j k : nat) row cell, rows !! j = Some row -> row !! k = Some cell ->
                                truthy cell = true -> 0 <= pos.(x) + Z.of_nat k < 10) ->
  placePiece_rows newBoard pos yi rows = Ok b' ->
  Forall good_row b'.
Proof.
  induction rows as [|row rest IH]; intros newBoard yi b' Hgood Hcols; simpl.
  - intros [= <-]. exact Hgood.
  - destruct (placePiece_row newBoard pos yi 0 row) as [b1|] eqn:H1; simpl; [|discriminate].
    apply IH.
    + eapply placePiece_row_good; [exact Hgood | | exact H1].
      intros k cell Hk Ht. specialize (Hcols 0%nat k row cell eq_refl Hk Ht). lia.
    + intros j k row' cell Hj Hk Ht. exact (Hcols (S j) k row' cell Hj Hk Ht).
Qed.

(** A piece within bounds merges into a grid without raising, and the
    result has the 20 rows of 10 numbers of a grid. *)
Lemma placePiece_in_bounds board piece :
  is_grid board = true ->
  in_bounds piece.(shape) piece.(position) ->
  exists merged,
    placePiece board piece = Ok merged /\
    length merged = 20%nat /\ Forall good_row merged.
Proof.
  intros Hg Hin. apply is_grid_iff in Hg as [Hlen Hgood].
  destruct (placePiece_rows_spec piece.(position) piece.(shape) board 0)
    as (merged & Hrun & Hlen' & _).
  { intros j row Hj Ht. apply existsb_exists in Ht as (c & Hc & Ht).
    apply list_elem_of_In, list_elem_of_lookup_1 in Hc as [k Hk].
    destruct (Hin j k) as [_ Hy]; [exists row, c; auto|].
    unfold BOARD_HEIGHT in Hy. lia. }
  exists merged. unfold placePiece. rewrite map_id.
  split; [exact Hrun|]. split; [congruence|].
  eapply placePiece_rows_good; [exact Hgood | | exact Hrun].
  intros j k row cell Hj Hk Ht.
  destruct (Hin j k) as [Hx _]; [exists row, cell; auto|].
  unfold BOARD_WIDTH in Hx. exact Hx.
Qed.

Lemma clearLines_grid merged :
  length merged = 20%nat -> Forall good_row merged ->
  is_grid (fst (clearLines merged)) = true /\ 0 <= snd (clearLines merged).
Proof.
  intros Hlen Hgood. rewrite clearLines_of_height by exact Hlen. simpl.
  pose proof (List.filter_length_le has_empty_cell merged) as Hle.
  split; [|lia]. apply is_grid_iff. split.
  - rewrite length_app, length_replicate. lia.
  - apply Forall_app. split.
    + apply Forall_replicate. split; [reflexivity|].
      unfold empty_row. apply Forall_replicate. reflexivity.
    + apply List.Forall_forall. intros row Hrow.
      apply List.filter_In in Hrow as [Hrow _].
      rewrite List.Forall_forall in Hgood. exact (Hgood row Hrow).
Qed.

Lemma createRandomPiece_square randomType :
  square (createRandomPiece randomType).(shape).
Proof.
  destruct randomType; simpl;
    [exists 4%nat | exists 2%nat | exists 3%nat | exists 3%nat
     | exists 3%nat | exists 3%nat | exists 3%nat];
    (split; [lia | split; [reflexivity | repeat constructor]]).
Qed.

Lemma createRandomPiece_in_bounds randomType :
  in_bounds (createRandomPiece randomType).(shape)
            (createRandomPiece randomType).(position).
Proof.
  apply (in_bounds_of_valid EMPTY_BOARD (createRandomPiece randomType) _ None);
    [reflexivity|].
  destruct randomType; vm_compute; reflexivity.
Qed.

Lemma rotatePiece_square s :
  square s -> exists s', rotatePiece s = Ok s' /\ square s'.
Proof.
  intros (n & Hn & Hrect).
  destruct (rotatePiece_rect n n s Hrect Hn) as (s' & Hrun & Hrect' & _).
  exists s'. split; [exact Hrun|]. exists n. split; assumption.
Qed.

Lemma safe_grid st : safe st -> length st.(board) = 20%nat.
Proof. intros [Hgrid _]. apply is_grid_height. exact Hgrid. Qed.

Lemma safe_piece st p :
  safe st -> st.(currentPiece) = Some p ->
  in_bounds p.(shape) p.(position) /\ square p.(shape).
Proof. intros [_ Hpiece]. apply Hpiece. Qed.

Lemma kept_by_same st : safe st -> kept_by st (Returned st).
Proof.
  intros Hsafe. exists st. split; [reflexivity|]. split; [exact Hsafe|]. left. lia.
Qed.

Lemma kept_by_piece st (p : Piece) :
  safe st -> in_bounds p.(shape) p.(position) -> square p.(shape) ->
  kept_by st (Returned (setCurrentPiece st (Some p))).
Proof.
  intros [Hgrid _] Hin Hsq. eexists. split; [reflexivity|].
  split; [|left; simpl; lia]. split; [exact Hgrid|].
  simpl. intros p' [= <-]. split; assumption.
Qed.

Lemma kept_by_move st (piece : Piece) (pos : Position) :
  safe st -> st.(currentPiece) = Some piece ->
  isValidPosition st.(board) piece pos None = Ok true ->
  kept_by st (Returned (setCurrentPiece st (Some (withPosition piece pos)))).
Proof.
  intros Hsafe Hcur Hvalid. apply kept_by_piece; [exact Hsafe | |].
  - exact (in_bounds_of_valid _ _ _ None (safe_grid _ Hsafe) Hvalid).
  - apply (safe_piece st piece Hsafe Hcur).
Qed.

Lemma movePieceDown_kept st randomType :
  safe st -> kept_by st (movePieceDown st randomType).
Proof.
  intros Hsafe. pose proof (safe_grid _ Hsafe) as Hlen. unfold movePieceDown.
  destruct (currentPiece st) as [piece|] eqn:Hcur; [|apply kept_by_same; exact Hsafe].
  destruct (gameOver st || isPaused st); [apply kept_by_same; exact Hsafe|].
  destruct (isValidPosition_total st.(board) piece
              {| x := piece.(position).(x); y := piece.(position).(y) + 1 |} None Hlen)
    as ([|] & Hdown); rewrite Hdown.
  - apply kept_by_move; assumption.
  - destruct (placePiece_in_bounds st.(board) piece (proj1 Hsafe)
                (proj1 (safe_piece st piece Hsafe Hcur)))
      as (merged & Hmerge & Hlen' & Hgood).
    rewrite Hmerge.
    destruct (clearLines_grid merged Hlen' Hgood) as [Hcleared Hcount].
    destruct (clearLines merged) as [cleared count]. simpl in Hcleared, Hcount.
    destruct (isValidPosition_total st.(board) (createRandomPiece randomType)
                (createRandomPiece randomType).(position) None Hlen)
      as ([|] & Hspawn); rewrite Hspawn.
    + eexists. split; [reflexivity|]. split; [|left; simpl; lia].
      split; [exact Hcleared|]. simpl. intros p [= <-]. split.
      * exact (in_bounds_of_valid _ _ _ None Hlen Hspawn).
      * apply createRandomPiece_square.
    + eexists. split; [reflexivity|]. split; [|left; simpl; lia].
      split; [exact Hcleared|]. simpl. intros p Hp. rewrite Hcur in Hp.
      injection Hp as <-. exact (safe_piece st piece Hsafe Hcur).
Qed.

Lemma handleKeyPress_kept st key randomType :
  safe st -> kept_by st (handleKeyPress st key randomType).
Proof.
  intros Hsafe. pose proof (safe_grid _ Hsafe) as Hlen.
  pose proof (movePieceDown_kept st randomType Hsafe) as Hdown.
  unfold handleKeyPress.
  destruct (currentPiece st) as [piece|] eqn:Hcur; [|apply kept_by_same; exact Hsafe].
  destruct (gameOver st || isPaused st); [apply kept_by_same; exact Hsafe|].
  destruct (key =? "ArrowLeft")%string.
  { destruct (isValidPosition_total st.(board) piece
                {| x := piece.(position).(x) - 1; y := piece.(position).(y) |} None Hlen)
      as ([|] & Hv); rewrite Hv;
      [apply kept_by_move; assumption | apply kept_by_same; exact Hsafe]. }
  destruct (key =? "ArrowRight")%string.
  { destruct (isValidPosition_total st.(board) piece
                {| x := piece.(position).(x) + 1; y := piece.(position).(y) |} None Hlen)
      as ([|] & Hv); rewrite Hv;
      [apply kept_by_move; assumption | apply kept_by_same; exact Hsafe]. }
  destruct (key =? "ArrowDown")%string; [exact Hdown|].
  destruct ((key =? "ArrowUp")%string || (key =? " ")%string).
  { destruct (rotatePiece_square _ (proj2 (safe_piece st piece Hsafe Hcur)))
      as (rotated & Hrot & Hsq).
    rewrite Hrot.
    destruct (isValidPosition_total st.(board) piece piece.(position) (Some rotated) Hlen)
      as ([|] & Hv); rewrite Hv; [|apply kept_by_same; exact Hsafe].
    apply (kept_by_piece st (withShape piece rotated)); [exact Hsafe | | exact Hsq].
    exact (in_bounds_of_valid _ _ _ (Some rotated) Hlen Hv). }
  destruct ((key =? "p")%string || (key =? "P")%string); [|apply kept_by_same; exact Hsafe].
  eexists. split; [reflexivity|]. split; [exact Hsafe | left; simpl; lia].
Qed.

Lemma handle_kept st (e : event) : safe st -> kept_by st (handle st e).
Proof.
  intros Hsafe. destruct e as [randomType|key randomType| |randomType]; simpl.
  - apply movePieceDown_kept. exact Hsafe.
  - apply handleKeyPress_kept. exact Hsafe.
  - unfold pauseButtonClick. destruct (gameOver st); [apply kept_by_same; exact Hsafe|].
    eexists. split; [reflexivity|]. split; [exact Hsafe | left; simpl; lia].
  - eexists. split; [reflexivity|]. split; [|right; split; reflexivity].
    split; [reflexivity|]. simpl. intros p [= <-]. split;
      [apply createRandomPiece_in_bounds | apply createRandomPiece_square].
Qed.

Lemma Inv_mount randomType : Inv (mount randomType).
Proof.
  unfold Inv, mount. simpl. split; [|split; [reflexivity | lia]].
  split; [reflexivity|]. simpl. intros p [= <-]. split;
    [apply createRandomPiece_in_bounds | apply createRandomPiece_square].
Qed.

Lemma Inv_step st e : Inv st -> Inv (step st e).
Proof.
  intros (Hsafe & Hlevel & Hlines).
  destruct (handle_kept st e Hsafe) as (st' & Hrun & Hsafe' & Hcount).
  unfold step, levelEffect. rewrite Hrun. simpl.
  destruct (lines st =? lines st') eqn:He.
  - apply Z.eqb_eq in He. split; [exact Hsafe'|].
    destruct Hcount as [[_ Hl]|[Hl0 Hl1]].
    + split; [congruence | lia].
    + rewrite Hl0, Hl1. split; [reflexivity | lia].
  - split; [exact Hsafe'|]. simpl.
    split; [reflexivity|]. destruct Hcount as [[Hle _]|[Hl0 _]]; lia.
Qed.

Lemma reachable_Inv st : reachable st -> Inv st.
Proof.
  induction 1 as [randomType|st e _ IH]; [apply Inv_mount | apply Inv_step; exact IH].
Qed.

(** In a session no handler raises: the board stays a grid of H rows, and
    every piece handed to [placePiece] or [rotatePiece] has passed the
    collision check or comes from the tetromino table. *)
Lemma reachable_never_throws st e :
  reachable st -> exists st', handle st e = Returned st'.
Proof.
  intros Hreach. destruct (reachable_Inv st Hreach) as (Hsafe & _).
  destruct (handle_kept st e Hsafe) as (st' & Hrun & _).
  exists st'. exact Hrun.
Qed.

Lemma reachable_run st events : reachable st -> reachable (run st events).
Proof.
  revert st. induction events as [|e events IH]; intros st Hreach; simpl.
  - exact Hreach.
  - apply IH. apply reachable_step. exact Hreach.
Qed.

(** In a session the level never goes down from one tick to the next. *)
Lemma reachable_level_monotone st randomType :
  reachable st -> st.(level) <= (tick st randomType).(level).
Proof.
  intros Hreach. destruct (reachable_Inv st Hreach) as (Hsafe & Hlevel & _).
  destruct (movePieceDown_lines_level st randomType (safe_grid _ Hsafe)) as [Hle Hl].
  unfold tick, step, handle, levelEffect.
  destruct (lines st =? lines (committed (movePieceDown st randomType))); simpl.
  - lia.
  - rewrite Hlevel. apply levelOf_mono. exact Hle.
Qed.

(** The sample states come up in play: ninety-nine ticks in which only O
    pieces are drawn stack nine of them in columns 4 and 5 and leave the
    tenth at its spawn position; one press of the pause key pauses a game
    just begun. *)
Lemma stacked_state_reachable : reachable stacked_state.
Proof.
  assert (Hrun : run (mount Tet_O) (replicate 99 (Tick Tet_O)) = stacked_state)
    by (vm_compute; reflexivity).
  rewrite <- Hrun. apply reachable_run. constructor.
Qed.

Lemma paused_state_reachable : reachable paused_state.
Proof.
  assert (Hrun : run (mount Tet_T) [KeyDown "p" Tet_T] = paused_state)
    by (vm_compute; reflexivity).
  rewrite <- Hrun. apply reachable_run. constructor.
Qed.

(** The effect that installs the first piece has nothing to do once a
    piece is there. *)
Lemma initEffect_with_piece st p randomType :
  st.(currentPiece) = Some p -> initEffect st randomType = st.
Proof. intros Hcur. unfold initEffect. rewrite Hcur. reflexivity. Qed.

(** * Instances

    Each statement with a hypothesis is applied to a position of the game;
    the statements of the specification that fail are shown to fail. *)

(** The bottom row of [board_merged] is complete: it goes, the nineteen
    rows above it move down by one, and one line is counted. *)
Lemma clearLines_removes_complete_rows_witness :
  is_grid board_merged = true /\
  exists (kept : Board) (n : nat) (prepended : Board),
    remove_complete board_merged kept n /\
    sublist kept board_merged /\
    clearLines board_merged = (prepended ++ kept, Z.of_nat n) /\
    length prepended = n /\
    Forall (fun row => Z.of_nat (length row) = BOARD_WIDTH /\ Forall empty row)
           prepended /\
    prepended = replicate n (replicate (Z.to_nat BOARD_WIDTH) (Num 0)) /\
    length (fst (clearLines board_merged)) = Z.to_nat BOARD_HEIGHT /\
    0 <= snd (clearLines board_merged) <= BOARD_HEIGHT.
Proof.
  split; [reflexivity|].
  apply (clearLines_removes_complete_rows board_merged). reflexivity.
Defined.

(** The spawned O piece against the stacked board. *)
Lemma isValidPosition_iff_witness :
  Z.of_nat (length board_stacked) = BOARD_HEIGHT /\
  exists ok : bool,
    isValidPosition board_stacked (createRandomPiece Tet_O)
      (createRandomPiece Tet_O).(position) None = Ok ok /\
    (ok = true <->
     forall yi xi : nat,
       set_cell (createRandomPiece Tet_O).(shape) yi xi ->
       0 <= (createRandomPiece Tet_O).(position).(x) + Z.of_nat xi < BOARD_WIDTH /\
       (createRandomPiece Tet_O).(position).(y) + Z.of_nat yi < BOARD_HEIGHT /\
       (0 <= (createRandomPiece Tet_O).(position).(y) + Z.of_nat yi ->
        ~ filled (cell_at board_stacked
                    (Z.to_nat ((createRandomPiece Tet_O).(position).(y) + Z.of_nat yi))
                    (Z.to_nat ((createRandomPiece Tet_O).(position).(x) + Z.of_nat xi))))).
Proof.
  split; [reflexivity|].
  apply (isValidPosition_iff board_stacked (createRandomPiece Tet_O)
           (createRandomPiece Tet_O).(position) None).
  reflexivity.
Defined.

(** With the O piece one row too low, the write to row 20 raises: no
    merged board exists. *)
Lemma placePiece_below_floor_throws :
  ~ exists newBoard : Board,
      placePiece EMPTY_BOARD piece_below_floor = Ok newBoard /\
      forall r c : nat,
        (covers piece_below_floor r c -> cell_at newBoard r c = Num 1) /\
        (~ covers piece_below_floor r c ->
         cell_at newBoard r c = cell_at EMPTY_BOARD r c).
Proof.
  intros (newBoard & Hrun & _). vm_compute in Hrun. discriminate.
Qed.

(** The T piece entering the empty grid: its upper row is dropped. *)
Lemma placePiece_marks_covered_cells_witness :
  (forall yi xi : nat,
     set_cell piece_entering.(shape) yi xi ->
     piece_entering.(position).(y) + Z.of_nat yi < Z.of_nat (length EMPTY_BOARD)) /\
  exists newBoard : Board,
    placePiece EMPTY_BOARD piece_entering = Ok newBoard /\
    length newBoard = length EMPTY_BOARD /\
    forall r c : nat,
      (covers piece_entering r c -> cell_at newBoard r c = Num 1) /\
      (~ covers piece_entering r c ->
       cell_at newBoard r c = cell_at EMPTY_BOARD r c).
Proof.
  assert (Hfloor : forall yi xi : nat,
             set_cell piece_entering.(shape) yi xi ->
             piece_entering.(position).(y) + Z.of_nat yi
             < Z.of_nat (length EMPTY_BOARD)).
  { intros yi xi (row & c & Hrow & _).
    destruct yi as [|[|[|yi]]]; simpl in Hrow; try discriminate; simpl; lia. }
  split; [exact Hfloor|].
  exact (placePiece_marks_covered_cells EMPTY_BOARD piece_entering Hfloor).
Defined.

(** The O piece of [landing_state] completes the bottom row at level 1. *)
Lemma movePieceDown_scores_cleared_rows_witness :
  exists st',
    movePieceDown landing_state Tet_I = Returned st' /\
    st'.(score) = landing_state.(score) + Z.of_nat 1 * 100 * landing_state.(level) /\
    st'.(lines) = landing_state.(lines) + Z.of_nat 1 /\
    st'.(level) = landing_state.(level) /\
    st'.(board)
    = replicate 1 empty_row
        ++ (replicate 18 empty_row ++ [nums [0;0;0;0;1;1;0;0;0;0]]).
Proof.
  apply (movePieceDown_scores_cleared_rows landing_state Tet_I
           (withPosition (createRandomPiece Tet_O) {| x := 4; y := 18 |})
           board_merged
           (replicate 18 empty_row ++ [nums [0;0;0;0;1;1;0;0;0;0]]) 1).
  - reflexivity.
  - reflexivity.
  - reflexivity.
  - reflexivity.
  - vm_compute. reflexivity.
  - vm_compute. reflexivity.
  - assert (Hnums : Forall (fun row => forallb is_num row = true) board_merged)
      by (apply is_grid_nums; reflexivity).
    exact (filter_remove_complete board_merged Hnums).
Defined.

(** The tenth line of [landing_state] brings the level to 2. *)
Lemma level_follows_lines_witness :
  Z.of_nat (length landing_state.(board)) = BOARD_HEIGHT /\
  (tick landing_state Tet_I).(lines) = 10 /\
  (tick landing_state Tet_I).(level) = 2 /\
  (landing_state.(lines) <= (tick landing_state Tet_I).(lines) /\
   ((tick landing_state Tet_I).(lines) <> landing_state.(lines) ->
    (tick landing_state Tet_I).(level) = (tick landing_state Tet_I).(lines) / 10 + 1) /\
   (landing_state.(level) = landing_state.(lines) / 10 + 1 ->
    (tick landing_state Tet_I).(level) = (tick landing_state Tet_I).(lines) / 10 + 1 /\
    landing_state.(level) <= (tick landing_state Tet_I).(level))).
Proof.
  split; [reflexivity|]. split; [reflexivity|]. split; [reflexivity|].
  apply (level_follows_lines landing_state Tet_I). reflexivity.
Defined.

(** Four rotations fail on a matrix without rows and on one without
    columns. *)
Lemma rotatePiece_four_times_degenerate :
  rotate4 [] <> Ok [] /\ rotate4 [[]] <> Ok [[]].
Proof. split; vm_compute; discriminate. Qed.

(** The T tetromino. *)
Lemma rotatePiece_four_times_witness :
  rect 3 3 (tet_shape (TETROMINOES Tet_T)) /\
  rotate4 (tet_shape (TETROMINOES Tet_T)) = Ok (tet_shape (TETROMINOES Tet_T)).
Proof.
  assert (Hrect : rect 3 3 (tet_shape (TETROMINOES Tet_T)))
    by (split; [reflexivity | repeat constructor]).
  split; [exact Hrect|].
  apply (rotatePiece_four_times 3 3 _ Hrect); lia.
Defined.

(** The pause key pressed while paused. *)
Lemma handleKeyPress_ignored_while_paused_witness :
  paused_state.(isPaused) = true /\
  handleKeyPress paused_state "p" Tet_T = Returned paused_state.
Proof.
  split; [reflexivity|].
  apply (handleKeyPress_ignored_while_paused paused_state "p" Tet_T). reflexivity.
Defined.

Lemma movePieceDown_paused_unchanged_witness :
  paused_state.(isPaused) = true /\
  movePieceDown paused_state Tet_T = Returned paused_state /\
  tick paused_state Tet_T = paused_state.
Proof.
  split; [reflexivity|].
  apply (movePieceDown_paused_unchanged paused_state Tet_T). reflexivity.
Defined.

Lemma movePieceDown_no_piece_or_over_witness :
  game_over_state.(gameOver) = true /\
  movePieceDown game_over_state Tet_T = Returned game_over_state /\
  tick game_over_state Tet_T = game_over_state.
Proof.
  split; [reflexivity|].
  apply (movePieceDown_no_piece_or_over game_over_state Tet_T).
  right. reflexivity.
Defined.

(** * Further properties of the engine *)

(** ** rotatePiece, isValidPosition, placePiece, clearLines *)

(** X1.  On a matrix of R >= 1 rows and C columns [rotatePiece] returns a
    matrix of C rows and R columns with [output[c][R-1-r] = input[r][c]]. *)
Theorem rotatePiece_dimensions_and_entries (R C : nat) (shape : Shape) :
  rect R C shape -> (0 < R)%nat ->
  exists rotated,
    rotatePiece shape = Ok rotated /\
    rect C R rotated /\
    forall r c : nat, (r < R)%nat -> (c < C)%nat ->
                      cell_at rotated c (R - 1 - r) = cell_at shape r c.
Proof.
  intros Hrect HR.
  destruct (rotatePiece_rect R C shape Hrect HR) as (rotated & Hrun & Hrect' & Hcells).
  exists rotated. split; [exact Hrun|]. split; [exact Hrect'|].
  intros r c Hr Hc. rewrite Hcells by lia. f_equal. lia.
Qed.

Lemma rotatePiece_dimensions_and_entries_witness :
  rect 4 4 (tet_shape (TETROMINOES Tet_I)) /\
  exists rotated,
    rotatePiece (tet_shape (TETROMINOES Tet_I)) = Ok rotated /\
    rect 4 4 rotated /\
    forall r c : nat, (r < 4)%nat -> (c < 4)%nat ->
                      cell_at rotated c (4 - 1 - r)
                      = cell_at (tet_shape (TETROMINOES Tet_I)) r c.
Proof.
  assert (Hrect : rect 4 4 (tet_shape (TETROMINOES Tet_I)))
    by (split; [reflexivity | repeat constructor]).
  split; [exact Hrect|].
  apply (rotatePiece_dimensions_and_entries 4 4 _ Hrect). lia.
Defined.

Lemma cell_at_EMPTY_BOARD r c : truthy (cell_at EMPTY_BOARD r c) = false.
Proof.
  unfold cell_at, EMPTY_BOARD.
  destruct (replicate (Z.to_nat BOARD_HEIGHT) empty_row !! r) as [row|] eqn:Hrow;
    [|reflexivity].
  apply lookup_replicate in Hrow as [-> _].
  unfold array_get, empty_row.
  destruct (replicate (Z.to_nat BOARD_WIDTH) (Num 0) !! c) as [v|] eqn:Hv;
    [|reflexivity].
  apply lookup_replicate in Hv as [-> _]. reflexivity.
Qed.

(** X2.  On a board of H rows without a filled cell (the empty board of a
    new game is one) the collision check is the bounds check: it returns
    [true] exactly when every set cell of the shape is within the walls and
    above the floor. *)
Theorem isValidPosition_no_filled_cell (board : Board) (piece : Piece)
    (pos : Position) (newShape : option Shape) :
  Z.of_nat (length board) = BOARD_HEIGHT ->
  no_filled_cell board ->
  (isValidPosition board piece pos newShape = Ok true <->
   in_bounds (match newShape with Some s => s | None => piece.(shape) end) pos).
Proof.
  intros Hlen Hfree. unfold BOARD_HEIGHT in Hlen. unfold isValidPosition.
  destruct (isValidPosition_rows_spec board pos ltac:(lia)
              (match newShape with Some s => s | None => piece.(shape) end) 0)
    as (ok & Hrun & Hok).
  rewrite Hrun. split.
  - intros [= ->]. intros yi xi (row & c & Hrow & Hc & Ht).
    destruct (proj1 Hok eq_refl yi xi row c Hrow Hc Ht) as (Hx & Hy & _).
    rewrite Z.add_0_l in Hy. split; assumption.
  - intros Hin. f_equal. apply Hok. intros j k row c Hrow Hc Ht.
    destruct (Hin j k) as [Hx Hy]; [exists row, c; auto|].
    unfold cell_fits. rewrite Z.add_0_l. repeat split; try lia.
    intros _. apply Hfree.
Qed.

Lemma isValidPosition_no_filled_cell_witness :
  Z.of_nat (length EMPTY_BOARD) = BOARD_HEIGHT /\
  no_filled_cell EMPTY_BOARD /\
  (isValidPosition EMPTY_BOARD piece_entering piece_entering.(position) None = Ok true <->
   in_bounds piece_entering.(shape) piece_entering.(position)).
Proof.
  assert (Hfree : no_filled_cell EMPTY_BOARD).
  { intros r c Hf. unfold filled in Hf. rewrite cell_at_EMPTY_BOARD in Hf. discriminate. }
  split; [reflexivity|]. split; [exact Hfree|].
  apply (isValidPosition_no_filled_cell EMPTY_BOARD piece_entering
           piece_entering.(position) None); [reflexivity | exact Hfree].
Defined.

(** X3.  A position that is valid on a board is valid on every board of
    the same height with fewer filled cells. *)
Theorem isValidPosition_fewer_filled (b b' : Board) (piece : Piece)
    (pos : Position) (newShape : option Shape) :
  Z.of_nat (length b) = BOARD_HEIGHT ->
  Z.of_nat (length b') = BOARD_HEIGHT ->
  fewer_filled b b' ->
  isValidPosition b' piece pos newShape = Ok true ->
  isValidPosition b piece pos newShape = Ok true.
Proof.
  intros Hlen Hlen' Hsub. unfold BOARD_HEIGHT in *. unfold isValidPosition.
  destruct (isValidPosition_rows_spec b pos ltac:(lia)
              (match newShape with Some s => s | None => piece.(shape) end) 0)
    as (ok & Hrun & Hok).
  destruct (isValidPosition_rows_spec b' pos ltac:(lia)
              (match newShape with Some s => s | None => piece.(shape) end) 0)
    as (ok' & Hrun' & Hok').
  rewrite Hrun, Hrun'. intros [= ->]. f_equal. apply Hok.
  intros j k row c Hrow Hc Ht.
  destruct (proj1 Hok' eq_refl j k row c Hrow Hc Ht) as (Hx & Hy & Hcell).
  unfold cell_fits. repeat split; try lia.
  intros Hy0 Hf. apply (Hcell Hy0). apply Hsub. exact Hf.
Qed.

Lemma isValidPosition_fewer_filled_witness :
  isValidPosition EMPTY_BOARD (createRandomPiece Tet_O)
    (createRandomPiece Tet_O).(position) None = Ok true.
Proof.
  apply (isValidPosition_fewer_filled EMPTY_BOARD board_stacked
           (createRandomPiece Tet_O) (createRandomPiece Tet_O).(position) None).
  - reflexivity.
  - reflexivity.
  - intros r c Hf. unfold filled in Hf. rewrite cell_at_EMPTY_BOARD in Hf. discriminate.
  - vm_compute. reflexivity.
Defined.

(** X4.  Once a piece is merged it blocks itself: when no set cell maps
    to the floor or below and some set cell maps to a row of the board,
    the merge returns and the same piece at the same position is invalid
    on the merged board. *)
Theorem placePiece_then_collides (board : Board) (piece : Piece) :
  Z.of_nat (length board) = BOARD_HEIGHT ->
  (forall yi xi : nat,
     set_cell piece.(shape) yi xi ->
     piece.(position).(y) + Z.of_nat yi < BOARD_HEIGHT) ->
  (exists yi xi : nat,
     set_cell piece.(shape) yi xi /\ 0 <= piece.(position).(y) + Z.of_nat yi) ->
  exists merged,
    placePiece board piece = Ok merged /\
    isValidPosition merged piece piece.(position) None = Ok false.
Proof.
  intros Hlen Hfloor (yi & xi & Hset & Hy0). unfold BOARD_HEIGHT in *.
  unfold placePiece. rewrite map_id.
  destruct (placePiece_rows_spec piece.(position) piece.(shape) board 0)
    as (merged & Hrun & Hlen' & Hcells).
  { intros j row Hj Ht. apply existsb_exists in Ht as (c & Hin & Ht).
    apply list_elem_of_In, list_elem_of_lookup_1 in Hin as [k Hk].
    specialize (Hfloor j k ltac:(exists row, c; auto)). lia. }
  exists merged. split; [exact Hrun|]. unfold isValidPosition.
  destruct (isValidPosition_rows_spec merged piece.(position) ltac:(lia)
              piece.(shape) 0) as (ok & Hcheck & Hok).
  rewrite Hcheck. f_equal. destruct ok; [exfalso | reflexivity].
  destruct Hset as (row & c & Hrow & Hc & Ht).
  destruct (proj1 Hok eq_refl yi xi row c Hrow Hc Ht) as (Hx & _ & Hfree).
  rewrite Z.add_0_l in Hfree. apply (Hfree Hy0).
  rewrite Hcells.
  replace (rows_cover (position piece) 0 (shape piece)
             (Z.to_nat (y (position piece) + Z.of_nat yi))
             (Z.to_nat (x (position piece) + Z.of_nat xi))) with true; [reflexivity|].
  symmetry. apply rows_cover_iff. exists yi, xi, row, c.
  repeat split; auto; lia.
Qed.

Lemma placePiece_then_collides_witness :
  exists merged,
    placePiece EMPTY_BOARD piece_entering = Ok merged /\
    isValidPosition merged piece_entering piece_entering.(position) None = Ok false.
Proof.
  apply (placePiece_then_collides EMPTY_BOARD piece_entering).
  - reflexivity.
  - intros yi xi (row & c & Hrow & _).
    destruct yi as [|[|[|yi]]]; simpl in Hrow; try discriminate; simpl;
      unfold BOARD_HEIGHT; lia.
  - exists 1%nat, 0%nat. split; [|simpl; lia].
    exists (nums [1;1;1]), (Num 1). repeat split.
Defined.

Lemma is_grid_rect b : is_grid b = true -> rect 20 10 b.
Proof.
  intros Hg. apply is_grid_iff in Hg as [Hlen Hgood]. split; [exact Hlen|].
  eapply Forall_impl; [exact Hgood|]. intros row [Hw _]. exact Hw.
Qed.

(** X5.  Merging is idempotent: on a grid, a piece within the walls and
    above the floor merged a second time changes nothing. *)
Theorem placePiece_idempotent (board : Board) (piece : Piece) :
  is_grid board = true ->
  in_bounds piece.(shape) piece.(position) ->
  exists merged,
    placePiece board piece = Ok merged /\
    placePiece merged piece = Ok merged.
Proof.
  intros Hg Hin.
  destruct (placePiece_in_bounds board piece Hg Hin) as (merged & Hrun & Hlen & Hgood).
  assert (Hg' : is_grid merged = true) by (apply is_grid_iff; split; assumption).
  destruct (placePiece_in_bounds merged piece Hg' Hin) as (again & Hrun2 & Hlen2 & Hgood2).
  assert (Hg2 : is_grid again = true) by (apply is_grid_iff; split; assumption).
  exists merged. split; [exact Hrun|]. rewrite Hrun2. f_equal.
  apply (rect_ext 20 10); [apply is_grid_rect; exact Hg2 | apply is_grid_rect; exact Hg'|].
  intros r c _ _.
  assert (Hfloor : forall b : Board, length b = 20%nat ->
            forall (j : nat) row, piece.(shape) !! j = Some row ->
              existsb truthy row = true ->
              piece.(position).(y) + 0 + Z.of_nat j < Z.of_nat (length b)).
  { intros b Hb j row Hj Ht. apply existsb_exists in Ht as (v & Hv & Ht).
    apply list_elem_of_In, list_elem_of_lookup_1 in Hv as [k Hk].
    destruct (Hin j k) as [_ Hy]; [exists row, v; auto|].
    unfold BOARD_HEIGHT in Hy. lia. }
  unfold placePiece in Hrun, Hrun2. rewrite map_id in Hrun, Hrun2.
  destruct (placePiece_rows_spec piece.(position) piece.(shape) board 0
              (Hfloor board (is_grid_height _ Hg))) as (m1 & H1 & _ & Hc1).
  destruct (placePiece_rows_spec piece.(position) piece.(shape) merged 0
              (Hfloor merged Hlen)) as (m2 & H2 & _ & Hc2).
  rewrite Hrun in H1. injection H1 as <-.
  rewrite Hrun2 in H2. injection H2 as <-.
  rewrite Hc2, Hc1.
  destruct (rows_cover (position piece) 0 (shape piece) r c); reflexivity.
Qed.

Lemma placePiece_idempotent_witness :
  exists merged,
    placePiece board_stacked (createRandomPiece Tet_O) = Ok merged /\
    placePiece merged (createRandomPiece Tet_O) = Ok merged.
Proof.
  apply (placePiece_idempotent board_stacked (createRandomPiece Tet_O)).
  - reflexivity.
  - apply createRandomPiece_in_bounds.
Defined.

Lemma filter_has_empty_cell_all (b : Board) :
  Forall (fun row => has_empty_cell row = true) b ->
  List.filter has_empty_cell b = b.
Proof.
  induction 1 as [|row b Hrow _ IH]; simpl; [reflexivity|].
  rewrite Hrow, IH. reflexivity.
Qed.

Lemma clearLines_rows_have_empty_cell (board : Board) :
  Forall (fun row => has_empty_cell row = true) (fst (clearLines board)).
Proof.
  unfold clearLines. simpl. rewrite unshift_empty_rows_eq.
  apply Forall_app. split.
  - apply Forall_replicate. reflexivity.
  - apply List.Forall_forall. intros row Hrow.
    apply List.filter_In in Hrow as [_ Hrow]. exact Hrow.
Qed.

(** X6.  After [clearLines] nothing is left to clear: on a board of at
    most H rows every row of the result has an empty cell, and a second
    call returns the same board and the count 0. *)
Theorem clearLines_idempotent (board : Board) :
  Z.of_nat (length board) <= BOARD_HEIGHT ->
  Forall (Exists empty) (fst (clearLines board)) /\
  clearLines (fst (clearLines board)) = (fst (clearLines board), 0).
Proof.
  intros Hlen. unfold BOARD_HEIGHT in Hlen.
  pose proof (clearLines_rows_have_empty_cell board) as Hall.
  split.
  - eapply Forall_impl; [exact Hall|]. intros row. apply has_empty_cell_true.
  - assert (Hlen' : length (fst (clearLines board)) = 20%nat).
    { unfold clearLines. simpl. rewrite unshift_empty_rows_eq.
      pose proof (List.filter_length_le has_empty_cell board) as Hle.
      rewrite length_app, length_replicate. unfold BOARD_HEIGHT. lia. }
    rewrite (clearLines_of_height _ Hlen').
    rewrite (filter_has_empty_cell_all _ Hall), Hlen'. reflexivity.
Qed.

Lemma clearLines_idempotent_witness :
  Forall (Exists empty) (fst (clearLines board_merged)) /\
  clearLines (fst (clearLines board_merged)) = (fst (clearLines board_merged), 0).
Proof.
  apply (clearLines_idempotent board_merged). unfold BOARD_HEIGHT. simpl. lia.
Defined.

(** ** The keyboard *)

(** X7.  Only the down arrow can change the board and the counters: after
    any other key the committed board, score, line count, level and
    game-over flag are those of the snapshot. *)
Theorem handleKeyPress_keeps_board_and_counters
    (st : GameState) (key : string) (randomType : TetrominoType) :
  key <> "ArrowDown"%string ->
  (committed (handleKeyPress st key randomType)).(board) = st.(board) /\
  (committed (handleKeyPress st key randomType)).(score) = st.(score) /\
  (committed (handleKeyPress st key randomType)).(lines) = st.(lines) /\
  (committed (handleKeyPress st key randomType)).(level) = st.(level) /\
  (committed (handleKeyPress st key randomType)).(gameOver) = st.(gameOver).
Proof.
  intros Hkey. unfold handleKeyPress.
  destruct (currentPiece st) as [piece|]; [|simpl; auto].
  destruct (gameOver st || isPaused st); [simpl; auto|].
  destruct (key =? "ArrowLeft")%string.
  { destruct (isValidPosition _ piece _ None) as [[|]|]; simpl; auto. }
  destruct (key =? "ArrowRight")%string.
  { destruct (isValidPosition _ piece _ None) as [[|]|]; simpl; auto. }
  destruct (key =? "ArrowDown")%string eqn:Hdown.
  { apply String.eqb_eq in Hdown. contradiction. }
  destruct ((key =? "ArrowUp")%string || (key =? " ")%string).
  { destruct (rotatePiece (shape piece)) as [rotated|]; [|simpl; auto].
    destruct (isValidPosition _ piece _ (Some rotated)) as [[|]|]; simpl; auto. }
  destruct ((key =? "p")%string || (key =? "P")%string); simpl; auto.
Qed.

Lemma handleKeyPress_keeps_board_and_counters_witness :
  (committed (handleKeyPress stacked_state "ArrowUp" Tet_T)).(board)
  = stacked_state.(board) /\
  (committed (handleKeyPress stacked_state "ArrowUp" Tet_T)).(score)
  = stacked_state.(score) /\
  (committed (handleKeyPress stacked_state "ArrowUp" Tet_T)).(lines)
  = stacked_state.(lines) /\
  (committed (handleKeyPress stacked_state "ArrowUp" Tet_T)).(level)
  = stacked_state.(level) /\
  (committed (handleKeyPress stacked_state "ArrowUp" Tet_T)).(gameOver)
  = stacked_state.(gameOver).
Proof.
  apply (handleKeyPress_keeps_board_and_counters stacked_state "ArrowUp" Tet_T).
  discriminate.
Defined.

(** A set cell that does not fit makes the check fail. *)
Lemma isValidPosition_blocked board piece pos (yi xi : nat) :
  length board = 20%nat ->
  set_cell piece.(shape) yi xi ->
  ~ cell_fits board pos (Z.of_nat yi) (Z.of_nat xi) ->
  isValidPosition board piece pos None = Ok false.
Proof.
  intros Hlen (row & c & Hrow & Hc & Ht) Hno. unfold isValidPosition.
  destruct (isValidPosition_rows_spec board pos Hlen piece.(shape) 0)
    as (ok & Hrun & Hok).
  rewrite Hrun. f_equal. destruct ok; [exfalso | reflexivity].
  apply Hno. exact (proj1 Hok eq_refl yi xi row c Hrow Hc Ht).
Qed.

(** X8.  At a wall the arrow keys do nothing: with a set cell of the
    piece in column 0 the left arrow, and with one in column W - 1 the
    right arrow, returns with the state as it was. *)
Theorem handleKeyPress_at_wall
    (st : GameState) (piece : Piece) (randomType : TetrominoType) :
  Z.of_nat (length st.(board)) = BOARD_HEIGHT ->
  st.(currentPiece) = Some piece ->
  st.(gameOver) = false ->
  st.(isPaused) = false ->
  ((exists yi xi : nat, set_cell piece.(shape) yi xi /\
                        piece.(position).(x) + Z.of_nat xi = 0) ->
   handleKeyPress st "ArrowLeft" randomType = Returned st) /\
  ((exists yi xi : nat, set_cell piece.(shape) yi xi /\
                        piece.(position).(x) + Z.of_nat xi = BOARD_WIDTH - 1) ->
   handleKeyPress st "ArrowRight" randomType = Returned st).
Proof.
  intros Hlen Hcur Hover Hpause. unfold BOARD_HEIGHT, BOARD_WIDTH in *.
  assert (Hlen' : length st.(board) = 20%nat) by lia.
  split; intros (yi & xi & Hset & Hcol); unfold handleKeyPress;
    rewrite Hcur, Hover, Hpause; simpl.
  - rewrite (isValidPosition_blocked _ piece _ yi xi Hlen' Hset); [reflexivity|].
    unfold cell_fits, BOARD_WIDTH. simpl. lia.
  - rewrite (isValidPosition_blocked _ piece _ yi xi Hlen' Hset); [reflexivity|].
    unfold cell_fits, BOARD_WIDTH. simpl. lia.
Qed.

Lemma set_cell_O_corner : set_cell (createRandomPiece Tet_O).(shape) 0 0.
Proof. exists (nums [1;1]), (Num 1). repeat split. Qed.

Lemma handleKeyPress_at_wall_witness :
  handleKeyPress left_wall_state "ArrowLeft" Tet_T = Returned left_wall_state.
Proof.
  apply (handleKeyPress_at_wall left_wall_state
           (withPosition (createRandomPiece Tet_O) {| x := 0; y := 0 |}) Tet_T);
    try reflexivity.
  exists 0%nat, 0%nat. split; [exact set_cell_O_corner | reflexivity].
Defined.

Lemma position_eta (pos : Position) : {| x := pos.(x); y := pos.(y) |} = pos.
Proof. destruct pos. reflexivity. Qed.

Lemma piece_eta (p : Piece) :
  {| shape := p.(shape); color := p.(color); position := p.(position) |} = p.
Proof. destruct p. reflexivity. Qed.

(** X9.  A move to the left that is accepted is undone by the right
    arrow: when the piece is valid where it stands and one column to the
    left, left then right commits the original state. *)
Theorem handleKeyPress_left_then_right
    (st : GameState) (piece : Piece) (r1 r2 : TetrominoType) :
  st.(currentPiece) = Some piece ->
  st.(gameOver) = false ->
  st.(isPaused) = false ->
  isValidPosition st.(board) piece piece.(position) None = Ok true ->
  isValidPosition st.(board) piece
    {| x := piece.(position).(x) - 1; y := piece.(position).(y) |} None = Ok true ->
  exists moved,
    handleKeyPress st "ArrowLeft" r1 = Returned moved /\
    moved <> st /\
    handleKeyPress moved "ArrowRight" r2 = Returned st.
Proof.
  intros Hcur Hover Hpause Hhere Hleft.
  eexists. split; [|split].
  - unfold handleKeyPress. rewrite Hcur, Hover, Hpause. simpl.
    rewrite Hleft. reflexivity.
  - intros Heq. apply (f_equal currentPiece) in Heq. simpl in Heq.
    rewrite Hcur in Heq. injection Heq as Heq.
    apply (f_equal (fun p => p.(position).(x))) in Heq. simpl in Heq. lia.
  - unfold handleKeyPress. simpl. rewrite Hover, Hpause. simpl.
    replace (x (position piece) - 1 + 1) with (x (position piece)) by lia.
    rewrite position_eta.
    unfold isValidPosition in *. simpl. rewrite Hhere. f_equal.
    unfold withPosition. simpl. rewrite piece_eta.
    destruct st. simpl in *. subst. reflexivity.
Qed.

Lemma handleKeyPress_left_then_right_witness :
  exists moved,
    handleKeyPress falling_state "ArrowLeft" Tet_I = Returned moved /\
    moved <> falling_state /\
    handleKeyPress moved "ArrowRight" Tet_I = Returned falling_state.
Proof.
  apply (handleKeyPress_left_then_right falling_state
           (withPosition (createRandomPiece Tet_T) {| x := 4; y := 5 |}) Tet_I Tet_I);
    reflexivity.
Defined.

(** ** The buttons *)

(** X11.  Two clicks on the Pause / Resume button commit the state of
    before the first click; the button, unlike the pause key, also leads
    out of the pause. *)
Theorem pauseButtonClick_twice (st : GameState) :
  pauseButtonClick (pauseButtonClick st) = st /\
  (st.(gameOver) = false ->
   (pauseButtonClick st).(isPaused) = negb st.(isPaused)).
Proof.
  split.
  - unfold pauseButtonClick. destruct st as [b cp sc li le go pa].
    destruct go; simpl; [reflexivity|].
    unfold setIsPaused. simpl. rewrite negb_involutive. reflexivity.
  - intros Hover. unfold pauseButtonClick. rewrite Hover. reflexivity.
Qed.

(** X12.  New Game leads to the state of the first render whatever the
    state it is clicked in: empty board, a fresh piece at its spawn
    position, score 0, no line, level 1, neither over nor paused. *)
Theorem startNewGame_resets (st : GameState) (randomType : TetrominoType) :
  step st (NewGameClick randomType) = mount randomType /\
  (mount randomType).(board) = EMPTY_BOARD /\
  (mount randomType).(currentPiece) = Some (createRandomPiece randomType) /\
  (mount randomType).(score) = 0 /\
  (mount randomType).(lines) = 0 /\
  (mount randomType).(level) = 1 /\
  (mount randomType).(gameOver) = false /\
  (mount randomType).(isPaused) = false.
Proof.
  split; [|repeat split; reflexivity].
  unfold step, handle, levelEffect. simpl.
  destruct (lines st =? 0); reflexivity.
Qed.

(** X13.  Game over is terminal: once [gameOver] is set, ticks, keys and
    the pause button leave the state as it is and the interval is gone;
    only New Game leads out. *)
Theorem gameOver_is_terminal (st : GameState) (e : event) :
  st.(gameOver) = true ->
  (forall randomType, e <> NewGameClick randomType) ->
  step st e = st /\ gameLoop st = None.
Proof.
  intros Hover Hnot. split; [|unfold gameLoop; rewrite Hover; reflexivity].
  assert (Hrun : committed (handle st e) = st).
  { destruct e as [randomType|key randomType| |randomType]; simpl.
    - rewrite movePieceDown_guard by auto. reflexivity.
    - unfold handleKeyPress. destruct (currentPiece st); [|reflexivity].
      rewrite Hover. reflexivity.
    - unfold pauseButtonClick. rewrite Hover. reflexivity.
    - exfalso. apply (Hnot randomType). reflexivity. }
  unfold step, levelEffect. rewrite Hrun, Z.eqb_refl. reflexivity.
Qed.

Lemma gameOver_is_terminal_witness :
  step game_over_state (KeyDown "ArrowDown" Tet_I) = game_over_state /\
  gameLoop game_over_state = None.
Proof.
  apply (gameOver_is_terminal game_over_state (KeyDown "ArrowDown" Tet_I));
    [reflexivity | discriminate].
Defined.

(** ** The game loop *)

(** X14.  The period of the game loop lies between 100 and 1000 ms for
    every level from 1 on, does not grow with the level, loses exactly
    100 ms per level up to level 10, and stays at 100 ms from there. *)
Theorem speed_bounds (l1 l2 : Z) :
  1 <= l1 <= l2 ->
  100 <= speed l2 <= speed l1 /\ speed l1 <= 1000 /\
  (l1 <= 10 -> speed l1 = 1100 - 100 * l1) /\
  (10 <= l1 -> speed l1 = 100).
Proof. unfold speed. lia. Qed.

Lemma speed_bounds_witness :
  100 <= speed 7 <= speed 3 /\ speed 3 <= 1000 /\
  (3 <= 10 -> speed 3 = 1100 - 100 * 3) /\
  (10 <= 3 -> speed 3 = 100).
Proof. apply (speed_bounds 3 7). lia. Defined.

(** ** A whole session *)

Lemma movePieceDown_plays st randomType :
  safe st -> exists st', movePieceDown st randomType = Returned st' /\ plays st st'.
Proof.
  intros Hsafe. pose proof (safe_grid _ Hsafe) as Hlen. unfold movePieceDown.
  destruct (currentPiece st) as [piece|] eqn:Hcur;
    [|exists st; split; [reflexivity | constructor]].
  destruct (gameOver st || isPaused st);
    [exists st; split; [reflexivity | constructor]|].
  destruct (isValidPosition_total st.(board) piece
              {| x := piece.(position).(x); y := piece.(position).(y) + 1 |} None Hlen)
    as ([|] & Hdown); rewrite Hdown.
  - eexists. split; [reflexivity|].
    apply (plays_piece st piece); [exact Hcur | left; reflexivity].
  - destruct (placePiece_in_bounds st.(board) piece (proj1 Hsafe)
                (proj1 (safe_piece st piece Hsafe Hcur)))
      as (merged & Hmerge & Hlen' & Hgood).
    rewrite Hmerge.
    destruct (clearLines_grid merged Hlen' Hgood) as [_ Hcount].
    pose proof (plays_landing st piece merged) as Hland.
    destruct (clearLines merged) as [cleared count]. simpl in Hcount, Hland.
    destruct (isValidPosition_total st.(board) (createRandomPiece randomType)
                (createRandomPiece randomType).(position) None Hlen)
      as ([|] & Hspawn); rewrite Hspawn.
    + eexists. split; [reflexivity|].
      apply (Hland (createRandomPiece randomType) (gameOver st)); auto.
      right. exists randomType. auto.
    + eexists. split; [reflexivity|].
      unfold setGameOver, setScore, setLines, setBoard. simpl.
      rewrite Hcur. apply (Hland piece true); auto.
Qed.

Lemma handleKeyPress_plays st key randomType :
  safe st -> exists st', handleKeyPress st key randomType = Returned st' /\ plays st st'.
Proof.
  intros Hsafe. pose proof (safe_grid _ Hsafe) as Hlen.
  pose proof (movePieceDown_plays st randomType Hsafe) as Hdown.
  unfold handleKeyPress.
  destruct (currentPiece st) as [piece|] eqn:Hcur;
    [|exists st; split; [reflexivity | constructor]].
  destruct (gameOver st || isPaused st);
    [exists st; split; [reflexivity | constructor]|].
  destruct (key =? "ArrowLeft")%string.
  { destruct (isValidPosition_total st.(board) piece
                {| x := piece.(position).(x) - 1; y := piece.(position).(y) |} None Hlen)
      as ([|] & Hv); rewrite Hv; eexists; (split; [reflexivity|]);
      [apply (plays_piece st piece); [exact Hcur | left; reflexivity] | constructor]. }
  destruct (key =? "ArrowRight")%string.
  { destruct (isValidPosition_total st.(board) piece
                {| x := piece.(position).(x) + 1; y := piece.(position).(y) |} None Hlen)
      as ([|] & Hv); rewrite Hv; eexists; (split; [reflexivity|]);
      [apply (plays_piece st piece); [exact Hcur | left; reflexivity] | constructor]. }
  destruct (key =? "ArrowDown")%string; [exact Hdown|].
  destruct ((key =? "ArrowUp")%string || (key =? " ")%string).
  { destruct (rotatePiece_square _ (proj2 (safe_piece st piece Hsafe Hcur)))
      as (rotated & Hrot & _).
    rewrite Hrot.
    destruct (isValidPosition_total st.(board) piece piece.(position) (Some rotated) Hlen)
      as ([|] & Hv); rewrite Hv; eexists; (split; [reflexivity|]);
      [apply (plays_piece st piece); [exact Hcur | right; exact Hrot] | constructor]. }
  destruct ((key =? "p")%string || (key =? "P")%string);
    eexists; (split; [reflexivity|]); constructor.
Qed.

Lemma handle_commits st e :
  safe st -> exists st', handle st e = Returned st' /\ commits st e st'.
Proof.
  intros Hsafe. unfold commits.
  destruct e as [randomType|key randomType| |randomType]; simpl.
  - apply movePieceDown_plays. exact Hsafe.
  - apply handleKeyPress_plays. exact Hsafe.
  - eexists. split; [reflexivity|]. unfold pauseButtonClick.
    destruct (gameOver st); constructor.
  - eexists. split; reflexivity.
Qed.

Lemma levelOf_positive l : 0 <= l -> 1 <= levelOf l.
Proof.
  intros Hl. unfold levelOf. pose proof (Z.div_pos l 10 Hl ltac:(lia)). lia.
Qed.

Lemma EMPTY_BOARD_rows_have_empty_cell : Forall (Exists empty) EMPTY_BOARD.
Proof.
  apply Forall_replicate. apply has_empty_cell_true. reflexivity.
Qed.

Lemma session_state_mount randomType : session_state (mount randomType).
Proof.
  split; [apply Inv_mount|]. split; [apply EMPTY_BOARD_rows_have_empty_cell|].
  split; [eexists; reflexivity|]. split; [simpl; lia | exists 0; reflexivity].
Qed.

Lemma session_state_step st e : session_state st -> session_state (step st e).
Proof.
  intros (Hinv & Hrows & Hpiece & Hscore & Hdiv).
  pose proof (Inv_step st e Hinv) as Hinv'.
  destruct Hinv as (Hsafe & Hlevel & Hlines).
  destruct (handle_commits st e Hsafe) as (st' & Hrun & Hc).
  split; [exact Hinv'|]. clear Hinv'.
  assert (Hgoal : Forall (Exists empty) st'.(board) /\
                  (exists p, st'.(currentPiece) = Some p) /\
                  0 <= st'.(score) /\ (100 | st'.(score))).
  { destruct e as [r|key r| |r]; simpl in Hc;
      [| | |subst st'; simpl;
            split; [apply EMPTY_BOARD_rows_have_empty_cell|];
            split; [eauto|]; split; [lia | exists 0; reflexivity]];
      (destruct Hc as [|old p _ _|f|piece merged next over Hcur Hmerge Hlen Hcount _];
       [auto | simpl; repeat split; eauto | simpl; auto |]);
      (assert (Hclean : Forall (Exists empty) (fst (clearLines merged)))
         by (eapply Forall_impl; [apply clearLines_rows_have_empty_cell|];
             intros row; apply has_empty_cell_true));
      set (count := snd (clearLines merged)) in *;
      cbn [board currentPiece score];
      (split; [exact Hclean|]); (split; [eauto|]);
      pose proof (levelOf_positive _ Hlines) as Hl; rewrite <- Hlevel in Hl;
      (assert (Hgain : 0 <= count * 100 * level st)
         by (apply Z.mul_nonneg_nonneg; lia));
      (split; [lia|]);
      (apply Z.divide_add_r; [exact Hdiv|]);
      exists (count * level st); lia. }
  unfold step, levelEffect. rewrite Hrun. simpl.
  destruct (lines st =? lines st'); exact Hgoal.
Qed.

Lemma session_state_run randomType events :
  session_state (run (mount randomType) events).
Proof.
  unfold run. generalize (session_state_mount randomType).
  generalize (mount randomType) as st.
  induction events as [|e events IH]; intros st Hst; simpl; [exact Hst|].
  apply IH. apply session_state_step. exact Hst.
Qed.

(** X15.  In a session no handler raises: whatever events have been
    delivered since the first render, the handler of the next one returns.
    The rows that [placePiece] would miss and the empty shape that
    [rotatePiece] cannot take never reach them. *)
Theorem session_handlers_return
    (randomType : TetrominoType) (events : list event) (e : event) :
  exists st', handle (run (mount randomType) events) e = Returned st'.
Proof.
  destruct (session_state_run randomType events) as ((Hsafe & _) & _).
  destruct (handle_commits _ e Hsafe) as (st' & Hrun & _).
  exists st'. exact Hrun.
Qed.

(** X16.  In a session the board is always a grid of H rows of W numbers
    in which no row is complete: every row has an empty cell. *)
Theorem session_board_is_grid_without_complete_row
    (randomType : TetrominoType) (events : list event) :
  is_grid (run (mount randomType) events).(board) = true /\
  Forall (Exists empty) (run (mount randomType) events).(board) /\
  complete_rows (run (mount randomType) events).(board) = 0%nat.
Proof.
  destruct (session_state_run randomType events) as (((Hgrid & _) & _) & Hrows & _).
  split; [exact Hgrid|]. split; [exact Hrows|].
  unfold complete_rows. clear Hgrid.
  induction Hrows as [|row b Hrow _ IH]; simpl; [reflexivity|].
  assert (Hr : has_empty_cell row = true).
  { unfold has_empty_cell. apply existsb_exists.
    rewrite List.Exists_exists in Hrow. destruct Hrow as (c & Hin & ->).
    exists (Num 0). split; [exact Hin | reflexivity]. }
  rewrite Hr. simpl. exact IH.
Qed.

(** X17.  From the first render on there is always a current piece: its
    shape is a non-empty square matrix and its set cells are within the
    walls and above the floor. *)
Theorem session_always_has_piece
    (randomType : TetrominoType) (events : list event) :
  exists p,
    (run (mount randomType) events).(currentPiece) = Some p /\
    in_bounds p.(shape) p.(position) /\
    square p.(shape).
Proof.
  destruct (session_state_run randomType events) as ((Hsafe & _) & _ & (p & Hp) & _).
  exists p. split; [exact Hp|]. exact (safe_piece _ p Hsafe Hp).
Qed.

(** X18.  In a session the level is [floor(lines / 10) + 1] and at least
    1, the line count is not negative, and the score is a non-negative
    multiple of 100. *)
Theorem session_counters
    (randomType : TetrominoType) (events : list event) :
  (run (mount randomType) events).(level)
  = (run (mount randomType) events).(lines) / 10 + 1 /\
  1 <= (run (mount randomType) events).(level) /\
  0 <= (run (mount randomType) events).(lines) /\
  0 <= (run (mount randomType) events).(score) /\
  (100 | (run (mount randomType) events).(score)).
Proof.
  destruct (session_state_run randomType events)
    as ((_ & Hlevel & Hlines) & _ & _ & Hscore & Hdiv).
  split; [exact Hlevel|]. split; [|auto].
  rewrite Hlevel. apply levelOf_positive. exact Hlines.
Qed.

Lemma plays_counters st st' :
  plays st st' -> 1 <= st.(level) ->
  st.(score) <= st'.(score) /\ st.(lines) <= st'.(lines) /\
  st'.(level) = st.(level).
Proof.
  intros Hc Hlevel.
  destruct Hc as [|old p _ _|f|piece merged next over _ _ _ Hcount _].
  - lia.
  - simpl. lia.
  - simpl. lia.
  - set (count := snd (clearLines merged)) in *. cbn [score lines level].
    assert (Hgain : 0 <= count * 100 * level st)
      by (apply Z.mul_nonneg_nonneg; lia).
    lia.
Qed.

(** X19.  In a session no event but New Game makes the score, the line
    count or the level go down. *)
Theorem session_counters_never_decrease
    (randomType : TetrominoType) (events : list event) (e : event) :
  (forall r, e <> NewGameClick r) ->
  (run (mount randomType) events).(score)
  <= (step (run (mount randomType) events) e).(score) /\
  (run (mount randomType) events).(lines)
  <= (step (run (mount randomType) events) e).(lines) /\
  (run (mount randomType) events).(level)
  <= (step (run (mount randomType) events) e).(level).
Proof.
  intros Hnot.
  destruct (session_state_run randomType events)
    as ((Hsafe & Hlevel & Hlines) & _).
  set (st := run (mount randomType) events) in *.
  pose proof (levelOf_positive _ Hlines) as Hl. rewrite <- Hlevel in Hl.
  destruct (handle_commits st e Hsafe) as (st' & Hrun & Hc).
  assert (Hplays : plays st st').
  { destruct e as [r|key r| |r]; simpl in Hc; try exact Hc.
    exfalso. apply (Hnot r). reflexivity. }
  destruct (plays_counters st st' Hplays Hl) as (Hs & Hn & Hv).
  unfold step, levelEffect. rewrite Hrun. simpl.
  destruct (lines st =? lines st'); simpl; [lia|].
  split; [exact Hs|]. split; [exact Hn|].
  rewrite Hlevel. apply levelOf_mono. exact Hn.
Qed.

Lemma session_counters_never_decrease_witness :
  (run (mount Tet_O) (replicate 99 (Tick Tet_O))).(score)
  <= (step (run (mount Tet_O) (replicate 99 (Tick Tet_O))) (Tick Tet_T)).(score) /\
  (run (mount Tet_O) (replicate 99 (Tick Tet_O))).(lines)
  <= (step (run (mount Tet_O) (replicate 99 (Tick Tet_O))) (Tick Tet_T)).(lines) /\
  (run (mount Tet_O) (replicate 99 (Tick Tet_O))).(level)
  <= (step (run (mount Tet_O) (replicate 99 (Tick Tet_O))) (Tick Tet_T)).(level).
Proof.
  apply (session_counters_never_decrease Tet_O (replicate 99 (Tick Tet_O)) (Tick Tet_T)).
  discriminate.
Defined.

(** ** renderBoard *)

Lemma renderBoard_row_spec pos yi row : forall (d : Board) (xi : Z),
  length d = 20%nat ->
  exists d',
    renderBoard_row d pos yi xi row = Ok d' /\
    length d' = 20%nat /\
    forall r c : nat,
      cell_at d' r c
      = if row_covers pos yi xi row r c && on_grid r c then Num 2 else cell_at d r c.
Proof.
  induction row as [|cell rest IH]; intros d xi Hlen.
  - exists d. repeat split; auto.
  - simpl. destruct (truthy cell) eqn:Ht; simpl.
    + destruct ((pos.(y) + yi >=? 0) && (pos.(y) + yi <? BOARD_HEIGHT)
                && (pos.(x) + xi >=? 0) && (pos.(x) + xi <? BOARD_WIDTH)) eqn:Hguard.
      * apply andb_prop in Hguard as [Hguard Hx1].
        apply andb_prop in Hguard as [Hguard Hx0].
        apply andb_prop in Hguard as [Hy0 Hy1].
        unfold BOARD_HEIGHT, BOARD_WIDTH in *.
        assert (Hlt : (Z.to_nat (pos.(y) + yi) < length d)%nat) by zlia.
        destruct (lookup_lt_is_Some_2 d _ Hlt) as [brow Hrow]. rewrite Hrow.
        destruct (IH (<[Z.to_nat (pos.(y) + yi)
                        := array_set brow (pos.(x) + xi) (Num 2)]> d) (xi + 1))
          as (d' & Hrun & Hlen' & Hcells); [rewrite length_insert; exact Hlen|].
        exists d'. split; [exact Hrun|]. split; [exact Hlen'|].
        intros r c. rewrite Hcells.
        destruct (row_covers pos yi (xi + 1) rest r c && on_grid r c) eqn:Hrest.
        -- apply andb_prop in Hrest as [Hr1 Hr2].
           rewrite Hr1, Hr2, orb_true_r. reflexivity.
        -- rewrite cell_at_insert by exact Hlt.
           destruct (pos.(y) + yi =? Z.of_nat r) eqn:Hr.
           ++ replace (Nat.eqb (Z.to_nat (pos.(y) + yi)) r) with true
                by (symmetry; apply Nat.eqb_eq; zlia).
              rewrite array_get_set.
              destruct (pos.(x) + xi =? Z.of_nat c) eqn:Hc; simpl.
              ** assert (Hon : on_grid r c = true).
                 { unfold on_grid, BOARD_HEIGHT, BOARD_WIDTH.
                   apply andb_true_intro. split; apply Z.ltb_lt; zlia. }
                 rewrite Hon. reflexivity.
              ** rewrite Hrest. unfold cell_at.
                 replace r with (Z.to_nat (pos.(y) + yi)) by zlia.
                 rewrite Hrow. reflexivity.
           ++ replace (Nat.eqb (Z.to_nat (pos.(y) + yi)) r) with false
                by (symmetry; apply Nat.eqb_neq; zlia).
              simpl. rewrite Hrest. reflexivity.
      * destruct (IH d (xi + 1) Hlen) as (d' & Hrun & Hlen' & Hcells).
        exists d'. split; [exact Hrun|]. split; [exact Hlen'|].
        intros r c. rewrite Hcells.
        destruct ((pos.(y) + yi =? Z.of_nat r) && (pos.(x) + xi =? Z.of_nat c)) eqn:Hhead;
          [|reflexivity].
        apply andb_prop in Hhead as [Hr Hc].
        assert (Hoff : on_grid r c = false).
        { unfold on_grid. apply not_true_is_false. intros Hon.
          apply andb_prop in Hon as [Hon1 Hon2].
          apply Z.eqb_eq in Hr, Hc. rewrite Hr, Hc in Hguard.
          rewrite Hon1, Hon2 in Hguard.
          replace (Z.of_nat r >=? 0) with true in Hguard by (symmetry; apply Z.geb_le; lia).
          replace (Z.of_nat c >=? 0) with true in Hguard by (symmetry; apply Z.geb_le; lia).
          discriminate. }
        rewrite Hoff, !andb_false_r. reflexivity.
    + destruct (IH d (xi + 1) Hlen) as (d' & Hrun & Hlen' & Hcells).
      exists d'. split; [exact Hrun|]. split; [exact Hlen'|]. exact Hcells.
Qed.

Lemma renderBoard_rows_spec pos rows : forall (d : Board) (yi : Z),
  length d = 20%nat ->
  exists d',
    renderBoard_rows d pos yi rows = Ok d' /\
    length d' = 20%nat /\
    forall r c : nat,
      cell_at d' r c
      = if rows_cover pos yi rows r c && on_grid r c then Num 2 else cell_at d r c.
Proof.
  induction rows as [|row rest IH]; intros d yi Hlen.
  - exists d. repeat split; auto.
  - simpl. destruct (renderBoard_row_spec pos yi row d 0 Hlen) as (d1 & Hrun1 & Hlen1 & Hc1).
    rewrite Hrun1. simpl.
    destruct (IH d1 (yi + 1) Hlen1) as (d' & Hrun & Hlen' & Hcells).
    exists d'. split; [exact Hrun|]. split; [exact Hlen'|].
    intros r c. rewrite Hcells, Hc1.
    destruct (row_covers pos yi 0 row r c), (rows_cover pos (yi + 1) rest r c),
      (on_grid r c); reflexivity.
Qed.

(** X20.  On a board of H rows [renderBoard] never raises, wherever the
    current piece is: the board it draws has H rows, holds 2 in the cells
    of the grid that a set cell of the current piece maps to, and the
    value of the board everywhere else; the parts of a piece outside the
    grid are left out. *)
Theorem displayBoard_overlays_piece (st : GameState) :
  Z.of_nat (length st.(board)) = BOARD_HEIGHT ->
  exists d,
    displayBoard st = Ok d /\
    Z.of_nat (length d) = BOARD_HEIGHT /\
    (exists page, renderBoard st = Ok page /\ length page = length d) /\
    forall r c : nat,
      (overlay st r c -> cell_at d r c = Num 2 /\
                         cellClass (cell_at d r c) = "bg-blue-500"%string) /\
      (~ overlay st r c -> cell_at d r c = cell_at st.(board) r c).
Proof.
  intros Hlen. unfold BOARD_HEIGHT in *.
  assert (Hlen' : length st.(board) = 20%nat) by lia.
  assert (Hd : exists d, displayBoard st = Ok d /\ length d = 20%nat /\
             forall r c : nat,
               (overlay st r c -> cell_at d r c = Num 2) /\
               (~ overlay st r c -> cell_at d r c = cell_at st.(board) r c)).
  { unfold displayBoard, overlay. rewrite map_id.
    destruct (currentPiece st) as [piece|].
    - destruct (renderBoard_rows_spec piece.(position) piece.(shape) st.(board) 0 Hlen')
        as (d & Hrun & Hlend & Hcells).
      exists d. split; [exact Hrun|]. split; [exact Hlend|].
      intros r c. rewrite Hcells. split.
      + intros (p & [= <-] & Hcov & Hon). apply covers_iff in Hcov.
        rewrite Hcov, Hon. reflexivity.
      + intros Hno.
        destruct (rows_cover (position piece) 0 (shape piece) r c) eqn:Hcov;
          [|reflexivity].
        destruct (on_grid r c) eqn:Hon; [|reflexivity].
        exfalso. apply Hno. exists piece. split; [reflexivity|].
        split; [apply covers_iff; exact Hcov | reflexivity].
    - exists st.(board). split; [reflexivity|]. split; [exact Hlen'|].
      intros r c. split; [|reflexivity].
      intros (p & Hp & _). discriminate. }
  destruct Hd as (d & Hrun & Hlend & Hcells).
  exists d. split; [exact Hrun|]. split; [lia|]. split.
  - unfold renderBoard. rewrite Hrun. simpl. eexists. split; [reflexivity|].
    apply length_map.
  - intros r c. destruct (Hcells r c) as [Hin Hout]. split; [|exact Hout].
    intros Hov. rewrite (Hin Hov). split; reflexivity.
Qed.

Lemma displayBoard_overlays_piece_witness :
  exists d,
    displayBoard clipped_state = Ok d /\
    Z.of_nat (length d) = BOARD_HEIGHT /\
    (exists page, renderBoard clipped_state = Ok page /\ length page = length d) /\
    forall r c : nat,
      (overlay clipped_state r c ->
       cell_at d r c = Num 2 /\
       cellClass (cell_at d r c) = "bg-blue-500"%string) /\
      (~ overlay clipped_state r c ->
       cell_at d r c = cell_at clipped_state.(board) r c).
Proof.
  apply (displayBoard_overlays_piece clipped_state). reflexivity.
Defined.

(** ** createRandomPiece *)

(** X21.  Whatever the draw, the new piece has four set cells, stands at
    row 0 centred on the board, and occupies only rows 0 and 1 and
    columns 3 to 6: it is valid on every board of H rows whose cells in
    that area are not filled. *)
Theorem createRandomPiece_spawn_area (randomType : TetrominoType) (board : Board) :
  Z.of_nat (length board) = BOARD_HEIGHT ->
  (forall r c : nat, (r <= 1)%nat -> (3 <= c <= 6)%nat -> ~ filled (cell_at board r c)) ->
  length (List.filter truthy (concat (createRandomPiece randomType).(shape))) = 4%nat /\
  (createRandomPiece randomType).(position).(y) = 0 /\
  (forall yi xi : nat,
     set_cell (createRandomPiece randomType).(shape) yi xi ->
     (yi <= 1)%nat /\
     3 <= (createRandomPiece randomType).(position).(x) + Z.of_nat xi <= 6) /\
  isValidPosition board (createRandomPiece randomType)
    (createRandomPiece randomType).(position) None = Ok true.
Proof.
  intros Hlen Hfree. unfold BOARD_HEIGHT in Hlen.
  assert (Harea : forall yi xi : nat,
             set_cell (createRandomPiece randomType).(shape) yi xi ->
             (yi <= 1)%nat /\
             3 <= (createRandomPiece randomType).(position).(x) + Z.of_nat xi <= 6).
  { intros yi xi (row & c & Hrow & Hc & Ht).
    destruct randomType;
      destruct yi as [|[|[|[|yi]]]]; simpl in Hrow; try discriminate;
      injection Hrow as <-;
      destruct xi as [|[|[|[|xi]]]]; simpl in Hc; try discriminate;
      injection Hc as <-; simpl in Ht; try discriminate;
      vm_compute; repeat split; try lia; discriminate. }
  split; [destruct randomType; reflexivity|].
  split; [reflexivity|]. split; [exact Harea|].
  unfold isValidPosition.
  destruct (isValidPosition_rows_spec board (createRandomPiece randomType).(position)
              ltac:(lia) (createRandomPiece randomType).(shape) 0)
    as (ok & Hrun & Hok).
  rewrite Hrun. f_equal. apply Hok. intros j k row c Hrow Hc Ht.
  destruct (Harea j k) as [Hj Hk]; [exists row, c; auto|].
  unfold cell_fits, BOARD_WIDTH, BOARD_HEIGHT. simpl y in *.
  repeat split; try lia.
  intros _. apply Hfree; lia.
Qed.

Lemma createRandomPiece_spawn_area_witness :
  length (List.filter truthy (concat (createRandomPiece Tet_S).(shape))) = 4%nat /\
  (createRandomPiece Tet_S).(position).(y) = 0 /\
  (forall yi xi : nat,
     set_cell (createRandomPiece Tet_S).(shape) yi xi ->
     (yi <= 1)%nat /\
     3 <= (createRandomPiece Tet_S).(position).(x) + Z.of_nat xi <= 6) /\
  isValidPosition board_stacked (createRandomPiece Tet_S)
    (createRandomPiece Tet_S).(position) None = Ok true.
Proof.
  apply (createRandomPiece_spawn_area Tet_S board_stacked); [reflexivity|].
  intros r c Hr Hc.
  destruct r as [|[|r]]; [| |lia];
    destruct c as [|[|[|[|[|[|[|c]]]]]]]; try lia;
    intros Hf; vm_compute in Hf; discriminate.
Defined.

(** ** Lines per landing *)

Lemma placePiece_row_other pos yi row : forall (nb : Board) (xi : Z) b' (r : nat),
  placePiece_row nb pos yi xi row = Ok b' ->
  Z.of_nat r <> pos.(y) + yi ->
  b' !! r = nb !! r.
Proof.
  induction row as [|cell rest IH]; intros nb xi b' r; simpl.
  - intros [= <-] _. reflexivity.
  - destruct (truthy cell); [|apply IH].
    destruct (pos.(y) + yi >=? 0) eqn:Hy0; [|apply IH].
    destruct (nb !! Z.to_nat (pos.(y) + yi)) as [brow|]; [|discriminate].
    intros Hrun Hr. rewrite (IH _ _ _ r Hrun Hr).
    apply list_lookup_insert_ne. zlia.
Qed.

Lemma placePiece_rows_other pos rows : forall (nb : Board) (yi : Z) b' (r : nat),
  placePiece_rows nb pos yi rows = Ok b' ->
  Z.of_nat r < pos.(y) + yi \/ pos.(y) + yi + Z.of_nat (length rows) <= Z.of_nat r ->
  b' !! r = nb !! r.
Proof.
  induction rows as [|row rest IH]; intros nb yi b' r; simpl.
  - intros [= <-] _. reflexivity.
  - destruct (placePiece_row nb pos yi 0 row) as [b1|] eqn:H1; simpl; [|discriminate].
    intros Hrun Hr. rewrite (IH _ _ _ r Hrun) by lia.
    apply (placePiece_row_other _ _ _ _ _ _ _ H1). lia.
Qed.

Lemma complete_rows_window (l : Board) : forall (k : nat) (lo hi : Z),
  (forall (i : nat) row, l !! i = Some row -> has_empty_cell row = false ->
                         lo <= Z.of_nat (k + i) < hi) ->
  Z.of_nat (complete_rows l) <= Z.max 0 (hi - Z.max lo (Z.of_nat k)).
Proof.
  unfold complete_rows.
  induction l as [|row l IH]; intros k lo hi Hwin; simpl; [lia|].
  assert (Htail : forall (i : nat) row', l !! i = Some row' ->
                    has_empty_cell row' = false -> lo <= Z.of_nat (S k + i) < hi).
  { intros i row' Hi Hc. specialize (Hwin (S i) row' Hi Hc).
    replace (S k + i)%nat with (k + S i)%nat by lia. exact Hwin. }
  specialize (IH (S k) lo hi Htail).
  destruct (has_empty_cell row) eqn:Hrow; simpl.
  - lia.
  - specialize (Hwin 0%nat row eq_refl Hrow). simpl length. lia.
Qed.

Lemma filter_complement_length (b : Board) :
  (length (List.filter has_empty_cell b) + complete_rows b)%nat = length b.
Proof.
  unfold complete_rows. induction b as [|row b IH]; simpl; [reflexivity|].
  destruct (has_empty_cell row); simpl; lia.
Qed.

Lemma Exists_empty_has_empty_cell row : Exists empty row -> has_empty_cell row = true.
Proof.
  intros Hrow. unfold has_empty_cell. apply existsb_exists.
  rewrite List.Exists_exists in Hrow. destruct Hrow as (c & Hin & ->).
  exists (Num 0). split; [exact Hin | reflexivity].
Qed.

(** A merge into a board without complete rows completes at most as many
    rows as the shape has. *)
Lemma placePiece_completes_few board piece merged :
  Forall (Exists empty) board ->
  placePiece board piece = Ok merged ->
  (complete_rows merged <= length piece.(shape))%nat.
Proof.
  intros Hrows Hmerge. unfold placePiece in Hmerge. rewrite map_id in Hmerge.
  pose proof (complete_rows_window merged 0 piece.(position).(y)
                (piece.(position).(y) + Z.of_nat (length piece.(shape)))) as Hwin.
  assert (Hin : forall (i : nat) row, merged !! i = Some row ->
            has_empty_cell row = false ->
            piece.(position).(y) <= Z.of_nat (0 + i)
            < piece.(position).(y) + Z.of_nat (length piece.(shape))).
  { intros i row Hi Hc. simpl.
    destruct (Z_lt_dec (Z.of_nat i) (piece.(position).(y))) as [Hlo|Hlo];
      [|destruct (Z_le_dec (piece.(position).(y) + Z.of_nat (length piece.(shape)))
                           (Z.of_nat i)) as [Hhi|Hhi]; [|lia]];
      exfalso;
      rewrite (placePiece_rows_other _ _ _ _ _ i Hmerge) in Hi by lia;
      pose proof (Forall_lookup_1 _ _ _ _ Hrows Hi) as Hrow;
      apply Exists_empty_has_empty_cell in Hrow; congruence. }
  specialize (Hwin Hin). lia.
Qed.

Lemma plays_small st st' : safe st -> small st -> plays st st' -> small st'.
Proof.
  intros Hsafe Hsmall Hc.
  destruct Hc as [|old p Hcur Hshape|f|piece merged next over Hcur _ _ _ Hnext].
  - exact Hsmall.
  - intros q [= <-]. specialize (Hsmall old Hcur).
    destruct Hshape as [-> | Hrot]; [exact Hsmall|].
    destruct (safe_piece st old Hsafe Hcur) as [_ (n & Hn & Hrect)].
    destruct (rotatePiece_rect n n _ Hrect Hn) as (rotated & Hrun & [Hlen _] & _).
    rewrite Hrot in Hrun. injection Hrun as <-.
    destruct Hrect as [Hlen0 _]. lia.
  - exact Hsmall.
  - intros q [= <-]. destruct Hnext as [[-> _]|(r & -> & _)].
    + exact (Hsmall piece Hcur).
    + destruct r; simpl; lia.
Qed.

Lemma session_small randomType events : small (run (mount randomType) events).
Proof.
  unfold run.
  assert (Hgen : forall st, session_state st -> small st ->
                            small (fold_left step events st)).
  { induction events as [|e events IH]; intros st Hst Hsmall; simpl; [exact Hsmall|].
    apply IH; [apply session_state_step; exact Hst|].
    destruct Hst as ((Hsafe & _) & _).
    destruct (handle_commits st e Hsafe) as (st' & Hrun & Hc).
    assert (Hs' : small st').
    { destruct e as [r|key r| |r]; simpl in Hc;
        try exact (plays_small st st' Hsafe Hsmall Hc).
      subst st'. intros q [= <-]. destruct r; simpl; lia. }
    unfold step, levelEffect. rewrite Hrun. simpl.
    destruct (lines st =? lines st'); exact Hs'. }
  apply Hgen; [apply session_state_mount|].
  intros q [= <-]. destruct randomType; simpl; lia.
Qed.

(** X22.  In a session one event clears at most four lines: the line
    count grows by at most 4 and the score by at most [400 * level]. *)
Theorem session_at_most_four_lines
    (randomType : TetrominoType) (events : list event) (e : event) :
  (step (run (mount randomType) events) e).(lines)
  <= (run (mount randomType) events).(lines) + 4 /\
  (step (run (mount randomType) events) e).(score)
  <= (run (mount randomType) events).(score)
     + 400 * (run (mount randomType) events).(level).
Proof.
  pose proof (session_small randomType events) as Hsmall.
  destruct (session_state_run randomType events)
    as ((Hsafe & Hlevel & Hlines) & Hrows & _ & Hscore & _).
  set (st := run (mount randomType) events) in *.
  pose proof (levelOf_positive _ Hlines) as Hl. rewrite <- Hlevel in Hl.
  destruct (handle_commits st e Hsafe) as (st' & Hrun & Hc).
  assert (Hgoal : st'.(lines) <= st.(lines) + 4 /\
                  st'.(score) <= st.(score) + 400 * st.(level)).
  { destruct e as [r|key r| |r]; simpl in Hc; [| | |subst st'; simpl; lia];
      (destruct Hc as [|old p _ _|f|piece merged next over Hcur Hmerge Hlen _ _];
       [lia | simpl; lia | simpl; lia |]);
      pose proof (placePiece_completes_few _ _ _ Hrows Hmerge) as Hfew;
      specialize (Hsmall piece Hcur);
      pose proof (filter_complement_length merged) as Hsum;
      (assert (Hcount : 0 <= snd (clearLines merged) <= 4)
         by (unfold clearLines, BOARD_HEIGHT; simpl; lia));
      set (count := snd (clearLines merged)) in *;
      cbn [lines score];
      (assert (Hgain : count * 100 * level st <= 400 * level st) by nia);
      lia. }
  unfold step, levelEffect. rewrite Hrun. simpl.
  destruct (lines st =? lines st'); exact Hgoal.
Qed.

(** ** Boards of another height, half turns, the first-piece effect *)

(** X23.  [clearLines] measures against H whatever the height of its
    argument: the count is the number of complete rows plus the number of
    rows the board is short of H (so it is negative for a board with more
    than H rows to keep), and the result has H rows or, if more rows are
    kept, as many as are kept. *)
Theorem clearLines_any_height (board : Board) :
  snd (clearLines board)
  = Z.of_nat (complete_rows board) + (BOARD_HEIGHT - Z.of_nat (length board)) /\
  Z.of_nat (length (fst (clearLines board)))
  = Z.max BOARD_HEIGHT (Z.of_nat (length board) - Z.of_nat (complete_rows board)).
Proof.
  pose proof (filter_complement_length board) as Hsum.
  unfold clearLines. cbn [fst snd]. rewrite unshift_empty_rows_eq.
  rewrite length_app, length_replicate. unfold BOARD_HEIGHT.
  change (Z.to_nat 20) with 20%nat. lia.
Qed.

(** X24.  Two rotations make a half turn: on a matrix with rows and
    columns, rotating twice reverses the order of the rows and each row. *)
Theorem rotatePiece_twice (R C : nat) (shape : Shape) :
  rect R C shape -> (0 < R)%nat -> (0 < C)%nat ->
  (try once := rotatePiece shape in rotatePiece once)
  = Ok (reverse (map reverse shape)).
Proof.
  intros Hm HR HC.
  destruct (rotatePiece_rect R C shape Hm HR) as (s1 & -> & Hs1 & E1). simpl.
  destruct (rotatePiece_rect C R s1 Hs1 HC) as (s2 & -> & Hs2 & E2).
  f_equal. destruct Hm as [Hlen Hrows].
  assert (Hhalf : rect R C (reverse (map reverse shape))).
  { split; [rewrite length_reverse, length_map; exact Hlen|].
    apply Forall_reverse. apply Forall_lookup. intros i row Hrow.
    rewrite lookup_map in Hrow.
    destruct (shape !! i) as [row0|] eqn:Hi; [|discriminate].
    injection Hrow as <-. rewrite length_reverse.
    exact (Forall_lookup_1 _ _ _ _ Hrows Hi). }
  apply (rect_ext R C); [exact Hs2 | exact Hhalf |].
  intros i j Hi Hj. rewrite E2, E1 by lia.
  unfold cell_at.
  rewrite reverse_lookup by (rewrite length_map; lia).
  rewrite length_map, lookup_map, Hlen.
  replace (R - 1 - i)%nat with (R - S i)%nat by lia.
  destruct (shape !! (R - S i)%nat) as [row|] eqn:Hrow; simpl; [|reflexivity].
  pose proof (Forall_lookup_1 _ _ _ _ Hrows Hrow) as Hw. cbv beta in Hw.
  unfold array_get. rewrite reverse_lookup by lia. rewrite Hw.
  replace (C - 1 - j)%nat with (C - S j)%nat by lia. reflexivity.
Qed.

Lemma rotatePiece_twice_witness :
  (try once := rotatePiece (tet_shape (TETROMINOES Tet_L)) in rotatePiece once)
  = Ok (reverse (map reverse (tet_shape (TETROMINOES Tet_L)))).
Proof.
  apply (rotatePiece_twice 3 3 (tet_shape (TETROMINOES Tet_L)));
    [split; [reflexivity | repeat constructor] | lia | lia].
Defined.

(** X25.  The effect that installs a piece when there is none acts at the
    first render only: in a session its body always finds a piece and
    leaves the state as it is. *)
Theorem initEffect_only_at_mount
    (randomType : TetrominoType) (events : list event) (r : TetrominoType) :
  initEffect initialState randomType
  = setCurrentPiece initialState (Some (createRandomPiece randomType)) /\
  initEffect (run (mount randomType) events) r = run (mount randomType) events.
Proof.
  split; [reflexivity|].
  destruct (session_state_run randomType events) as (_ & _ & (p & Hp) & _).
  exact (initEffect_with_piece _ p r Hp).
Qed.
